(** * The Matrix service adapter of fabric-matrix (services/matrix.js)

    A shallow embedding of the [Matrix] class: its local state, the
    event-emitter vocabulary it produces, the requests it issues to the
    matrix-js-sdk client, and the handlers bound by [start].

    Conventions of the embedding.
    - A JavaScript string is a [string]; each character stands for one
      code unit below 256.
    - [async] methods are run to completion at the point where they are
      awaited or invoked; an exception thrown inside one is the rejection
      of the promise it returns.
    - The matrix-js-sdk client and the classes of @fabric/core ([Actor],
      [Hash256], [Key]) are collaborators outside the repository: what they
      answer is a parameter ([External]).
    - The host listens for 'error' on the adapter, as the bootstrap scripts
      do, so that emitting 'error' does not itself throw. *)

From Stdlib Require Import ZArith Lia Ascii String.
From stdpp Require Import base option list strings gmap.

Open Scope string_scope.

(** ** Strings *)

(** White space removed by [String.prototype.trim], among the code units
    below 256: TAB, LF, VT, FF, CR, SPACE and NBSP. *)
Definition is_space (c : ascii) : bool :=
  existsb (Ascii.eqb c) ["009"; "010"; "011"; "012"; "013"; " "; "160"]%char.

Fixpoint trim_start (l : list ascii) : list ascii :=
  match l with
  | [] => []
  | c :: r => if is_space c then trim_start r else l
  end.

Definition trim (s : string) : string :=
  string_of_list_ascii
    (rev (trim_start (rev (trim_start (list_ascii_of_string s))))).

(** [!v] is false for a string exactly when it is present and non-empty;
    [None] is [undefined]. *)
Definition truthy (v : option string) : bool :=
  match v with
  | Some s => negb (String.eqb s "")
  | None => false
  end.

(** The text [Field "pubkey" is required.] *)
Definition pubkey_required : string :=
  "Field " +:+ String (ascii_of_nat 34) "pubkey" +:+ String (ascii_of_nat 34) " is required.".

(** [a] occurs inside [s]. *)
Definition contains (s a : string) : Prop :=
  exists pre post : string, s = pre +:+ a +:+ post.

(** ** Data model *)

(** The object handed to [new Actor(...)]. *)
Inductive ActorInput :=
| OfId (id : string)          (* new Actor({ id: ... }) *)
| OfPubkey (pubkey : string). (* new Actor({ pubkey: ... }) *)

(** The object handed to [_registerActor]. *)
Record RegObject := mkRegObject {
  pubkey : option string;
  password : option string
}.

(** A value stored under [_state.actors]. *)
Inductive ActorEntry :=
| ActorData (input : ActorInput) (* the [data] of the Actor built from [input] *)
| Memory (o : RegObject).        (* the copy made by [_registerActor] *)

(** A value stored under [_state.users]. *)
Record UserEntry := mkUserEntry { actor : string }.

(** [this._state]. *)
Record LocalState := mkState {
  status : string;
  actors : gmap string ActorEntry;
  channels : gmap string unit;
  messages : gmap string unit;
  users : gmap string UserEntry;
  validators : gmap string unit
}.

(** [this.settings], the options the class reads. *)
Record Settings := mkSettings {
  autojoin : bool;
  handle : string;
  coordinator : string;
  sync_limit : Z;
  connect : bool
}.

Definition default_settings : Settings :=
  {| autojoin := true;
     handle := "@fabric:fabric.pub";
     coordinator := "!pPjIUAOkwmgXeICrzT:fabric.pub";
     sync_limit := 10000;
     connect := true |}.

(** A timeline event of the client: [getId()], [getType()] and the fields of
    [event.event] that the adapter reads. *)
Record MatrixEvent := mkEvent {
  event_id : string;
  etype : string;
  sender : string;
  room_id : string;
  body : option string
}.

Record Room := mkRoom {
  roomId : string;
  timeline : list MatrixEvent
}.

(** The [member] argument of the membership callback. *)
Record Member := mkMember {
  membership : string;
  userId : string;
  m_roomId : string
}.

(** ** The client: requests and answers *)

Inductive Content :=
| Text (body : option string)      (* { body, msgtype: 'm.text' } *)
| Reaction (event_id key : string). (* m.relates_to annotation *)

Inductive Request :=
| StartClient (initialSyncLimit : Z)
| JoinRoom (room : string)
| SendEvent (room type : string) (content : Content)
| RedactEvent (room eventID : string)
| Login (user pass : string)
| RegisterRequest (username pass : string)
| IsUsernameAvailable (username : string).

Inductive Response :=
| Resolved (v : string)
| Rejected (e : string).

(** What lies outside the repository. *)
Record External := mkExternal {
  (** [(new Actor(input)).id] *)
  actor_id : ActorInput -> string;
  (** [JSON.stringify(actor.data, null, '  ')] *)
  actor_json : ActorInput -> string;
  (** how the client settles a request, given the requests made so far *)
  respond : list Request -> Request -> Response;
  (** [Hash256.digest(Hash256.digest(this.key.private.toString()))] *)
  hashpass : string;
  (** [(new Date()).toISOString()] *)
  now : string
}.

(** ** The event stream *)

Inductive Payload :=
| PNone
| PText (s : string)
| PLabelled (label : string) (v : option string)
| POracleBoolean (b : bool)              (* Message ['OracleBoolean', b] *)
| PClientSync (created st : string)      (* Message ['MatrixClientSync', ..] *)
| PGenericError (message : string)       (* Message ['GenericError', ..] *)
| PActivity (actor : string) (object_id : option string)
            (content : option string) (target : string).

(** One call of [this.emit]. [seen] is [this._state] at that moment and
    [asked] the requests made to the client up to that moment. *)
Record Emission := mkEmission {
  name : string;
  payload : Payload;
  seen : LocalState;
  asked : list Request
}.

(** Handlers bound by the adapter, counted per event name: on the client
    ([sync] with [once], [Room.timeline], [RoomMember.membership]) and on the
    adapter itself ([activity], [prepared]). *)
Record Listeners := mkListeners {
  sync_once : nat;
  on_timeline : nat;
  on_membership : nat;
  on_activity : nat;
  on_prepared : nat
}.

Inductive Event := Sync | Timeline | Membership | Activity | Prepared.

Definition bind_listener (ev : Event) (l : Listeners) : Listeners :=
  match ev with
  | Sync => mkListeners (S (sync_once l)) (on_timeline l) (on_membership l) (on_activity l) (on_prepared l)
  | Timeline => mkListeners (sync_once l) (S (on_timeline l)) (on_membership l) (on_activity l) (on_prepared l)
  | Membership => mkListeners (sync_once l) (on_timeline l) (S (on_membership l)) (on_activity l) (on_prepared l)
  | Activity => mkListeners (sync_once l) (on_timeline l) (on_membership l) (S (on_activity l)) (on_prepared l)
  | Prepared => mkListeners (sync_once l) (on_timeline l) (on_membership l) (on_activity l) (S (on_prepared l))
  end.

(** ** The adapter and what it has done so far *)

Record World := mkWorld {
  settings : Settings;
  state : LocalState;            (* this._state *)
  listeners : Listeners;
  rooms : list Room;             (* this.client.getRooms() *)
  emitted : list Emission;       (* calls of this.emit, oldest first *)
  requests : list Request;       (* requests made to the client, oldest first *)
  console : list string          (* console.error and this.log lines *)
}.

Definition with_state (f : LocalState -> LocalState) (w : World) : World :=
  mkWorld (settings w) (f (state w)) (listeners w) (rooms w) (emitted w)
          (requests w) (console w).

Definition with_listeners (f : Listeners -> Listeners) (w : World) : World :=
  mkWorld (settings w) (state w) (f (listeners w)) (rooms w) (emitted w)
          (requests w) (console w).

Definition add_emission (e : Emission) (w : World) : World :=
  mkWorld (settings w) (state w) (listeners w) (rooms w) (emitted w ++ [e])
          (requests w) (console w).

Definition add_request (r : Request) (w : World) : World :=
  mkWorld (settings w) (state w) (listeners w) (rooms w) (emitted w)
          (requests w ++ [r]) (console w).

Definition add_console (line : string) (w : World) : World :=
  mkWorld (settings w) (state w) (listeners w) (rooms w) (emitted w)
          (requests w) (console w ++ [line]).

(** ** Exceptions and the monad of adapter code *)

Inductive Exn :=
| Error (msg : string)        (* new Error(msg) *)
| TypeError (prop : string)   (* reading [prop] of null *)
| ClientError (e : string).   (* a rejection of the client *)

(** The template-literal rendering of a caught exception. *)
Definition exn_text (e : Exn) : string :=
  match e with
  | Error msg => "Error: " +:+ msg
  | TypeError p => "TypeError: Cannot read properties of null (reading '" +:+ p +:+ "')"
  | ClientError e => e
  end.

Inductive Outcome (A : Type) :=
| Return (a : A)
| Throw (e : Exn)
| Exit.                       (* process.exit() *)
Arguments Return {A} a.
Arguments Throw {A} e.
Arguments Exit {A}.

Definition M (A : Type) : Type := World -> Outcome A * World.

Definition ret {A} (a : A) : M A := fun w => (Return a, w).

Definition bind {A B} (c : M A) (k : A -> M B) : M B := fun w =>
  match c w with
  | (Return a, w') => k a w'
  | (Throw e, w') => (Throw e, w')
  | (Exit, w') => (Exit, w')
  end.

Definition throw {A} (e : Exn) : M A := fun w => (Throw e, w).

Definition exit {A} : M A := fun w => (Exit, w).

(** [try { c } catch (exception) { h exception }] *)
Definition try_catch {A} (c : M A) (h : Exn -> M A) : M A := fun w =>
  match c w with
  | (Throw e, w') => h e w'
  | r => r
  end.

Definition get : M World := fun w => (Return w, w).

Definition modify (f : World -> World) : M unit := fun w => (Return tt, f w).

Declare Scope adapter_scope.
Delimit Scope adapter_scope with adapter.
Notation "x <- c ;; k" := (bind c (fun x => k))
  (at level 100, c at next level, k at level 200, right associativity) : adapter_scope.
Notation "c ;; k" := (bind c (fun _ => k))
  (at level 100, k at level 200, right associativity) : adapter_scope.
Open Scope adapter_scope.

Fixpoint repeatM (n : nat) (c : M unit) : M unit :=
  match n with
  | O => ret tt
  | S n' => c ;; repeatM n' c
  end.

(** ** Updates of the local state *)

Definition with_status (v : string) (s : LocalState) : LocalState :=
  mkState v (actors s) (channels s) (messages s) (users s) (validators s).

(** [_state.actors[k] = v]. The map holds, for a key, the entry that reading
    [_state.actors[k]] yields; see [store_user] for the key '__proto__'. *)
Definition store_actor (k : string) (v : ActorEntry) (s : LocalState) : LocalState :=
  mkState (status s) (<[k := v]> (actors s)) (channels s) (messages s)
          (users s) (validators s).

(** [_state.users[k] = v]. The map holds, for a key, the user entry that
    reading [_state.users[k]] yields. [_state.users] is a plain object: for the
    key '__proto__' the assignment replaces the prototype of the object instead
    of storing a property, and the entry under '__proto__' is that prototype,
    which is what reading '__proto__' then yields. What a replaced prototype
    lets other keys inherit (its 'actor' field) is no user entry and is not in
    the map: statements about keys other than the one assigned exclude
    '__proto__' (see [plain_keys]). *)
Definition store_user (k : string) (v : UserEntry) (s : LocalState) : LocalState :=
  mkState (status s) (actors s) (channels s) (messages s)
          (<[k := v]> (users s)) (validators s).

Definition initial_state : LocalState :=
  mkState "READY" ∅ ∅ ∅ ∅ ∅.

(** [new Matrix(settings)]; [known] is the room store of the client. *)
Definition constructor (s : Settings) (known : list Room) : World :=
  mkWorld s initial_state (mkListeners 0 0 0 0 0) known [] [] [].

(** ** The methods of the class *)

Section Adapter.

Variable E : External.

(** [get status] *)
Definition get_status : M string := fun w => (Return (status (state w)), w).

(** [set status (value = this.status)]: only 'READY' is assigned. *)
Definition set_status (value : option string) : M bool := fun w =>
  let v := default (status (state w)) value in
  if String.eqb v "READY"
  then (Return true, with_state (with_status v) w)
  else (Return false, w).

(** [client.on(...)], [client.once(...)], [this.on(...)] *)
Definition listen (ev : Event) : M unit :=
  modify (with_listeners (bind_listener ev)).

(** A request to the client that is awaited. *)
Definition request (r : Request) : M string := fun w =>
  match respond E (requests w) r with
  | Resolved v => (Return v, add_request r w)
  | Rejected e => (Throw (ClientError e), add_request r w)
  end.

(** A request to the client whose promise is dropped. *)
Definition request_detached (r : Request) : M unit :=
  modify (add_request r).

(** The part of [this.emit] common to every event name: the event reaches
    the stream. *)
Definition announce (n : string) (p : Payload) : M unit :=
  modify (fun w => add_emission (mkEmission n p (state w) (requests w)) w).

Definition _publishState : M unit := ret tt.

Definition _syncState : M unit := _publishState.

Definition _handleMatrixActivity (activity : Payload) : M unit := ret tt.

(** The adapter binds nothing to 'ready', so emitting it only announces. *)
Definition _handlePreparedEvent (st : Payload) : M unit :=
  listen Timeline ;;
  _syncState ;;
  announce "ready" PNone.

(** [this.emit(n, p)]: announce, then run the handlers the adapter has bound
    to [n] ('activity' and 'prepared' are the only names it binds). *)
Definition emit (n : string) (p : Payload) : M unit :=
  announce n p ;;
  w <- get ;;
  if String.eqb n "activity"
  then repeatM (on_activity (listeners w)) (_handleMatrixActivity p)
  else if String.eqb n "prepared"
  then repeatM (on_prepared (listeners w)) (_handlePreparedEvent p)
  else ret tt.

Definition _ensureUser (id : string) : M ActorInput :=
  let a := OfId id in
  modify (with_state (fun s =>
    store_user id (mkUserEntry (actor_id E a))
      (store_actor (actor_id E a) (ActorData a) s))) ;;
  ret a.

(** [get id] *)
Definition get_id : M string :=
  w <- get ;;
  a <- _ensureUser (handle (settings w)) ;;
  ret (actor_id E a).

(** The inner loop of [_getEvent]: indices [j - 1] down to [0]. *)
Fixpoint scan_timeline (eventID : string) (tl : list MatrixEvent) (j : nat)
  : option MatrixEvent :=
  match j with
  | O => None
  | S j' =>
      match tl !! j' with
      | Some event =>
          if String.eqb (event_id event) eventID then Some event
          else scan_timeline eventID tl j'
      | None => scan_timeline eventID tl j'
      end
  end.

(** The outer loop of [_getEvent]: indices [i - 1] down to [0]. *)
Fixpoint scan_rooms (eventID : string) (rs : list Room) (i : nat)
  : option MatrixEvent :=
  match i with
  | O => None
  | S i' =>
      match rs !! i' with
      | Some room =>
          match scan_timeline eventID (timeline room) (length (timeline room)) with
          | Some event => Some event
          | None => scan_rooms eventID rs i'
          end
      | None => scan_rooms eventID rs i'
      end
  end.

Definition _getEvent (eventID : string) : M (option MatrixEvent) :=
  w <- get ;;
  ret (scan_rooms eventID (rooms w) (length (rooms w))).

(** [event.event.room_id], where [event] may be null. *)
Definition room_of (event : option MatrixEvent) : M string :=
  match event with
  | Some e => ret (room_id e)
  | None => throw (TypeError "event")
  end.

Definition _react (eventID emoji : string) : M string :=
  event <- _getEvent eventID ;;
  room <- room_of event ;;
  result <- request (SendEvent room "m.reaction" (Reaction eventID emoji)) ;;
  ret result.

Definition _redact (eventID : string) : M unit :=
  event <- _getEvent eventID ;;
  room <- room_of event ;;
  request_detached (RedactEvent room eventID).

Definition login (username pass : string) : M string :=
  request (Login username pass).

Definition register (username pass : option string) : M (option string) :=
  if negb (truthy username) then throw (Error "Must provide username.")
  else if negb (truthy pass) then throw (Error "Must provide password.")
  else
    let u := default "" username in
    let p := default "" pass in
    emit "log" (PText ("Trying registration: " +:+ u +:+ ":" +:+ p)) ;;
    try_catch
      (result <- request (RegisterRequest u p) ;; ret (Some result))
      (fun exception =>
         modify (add_console ("no reg: " +:+ exn_text exception)) ;;
         ret None).

(** Resolves [true] when the client resolves, [false] when it rejects. *)
Definition _checkUsernameAvailable (username : string) : M bool :=
  emit "log" (PText ("Checking username: " +:+ username)) ;;
  try_catch
    (request (IsUsernameAvailable username) ;; ret true)
    (fun _ => ret false).

Definition _registerActor (object : RegObject) : M ActorEntry :=
  if negb (truthy (pubkey object)) then throw (Error pubkey_required)
  else
    let pk := default "" (pubkey object) in
    let actor := OfPubkey pk in
    let memory :=
      if truthy (password object) then mkRegObject (pubkey object) None
      else object in
    modify (with_state (store_actor (actor_id E actor) (Memory memory))) ;;
    w <- get ;;
    (if connect (settings w) then
       let username := pk in
       let pass :=
         if truthy (password object) then default "" (password object)
         else hashpass E in
       available <-
         try_catch
           (emit "log" (PText ("Checking availability: " +:+ username)) ;;
            a <- _checkUsernameAvailable username ;;
            emit "message" (POracleBoolean a) ;;
            ret a)
           (fun exception =>
              emit "error" (PText ("Could not check availability: " +:+ exn_text exception)) ;;
              ret false) ;;
       (if available : bool then
          try_catch
            (emit "log" (PText ("Trying registration: " +:+ username)) ;;
             registration <- register (Some username) (Some pass) ;;
             emit "log" (PLabelled "Registration:" registration))
            (fun exception =>
               emit "error" (PText ("Could not register with coordinator: " +:+ exn_text exception)))
        else ret tt) ;;
       try_catch
         (emit "log" (PText ("Trying login: " +:+ username)) ;;
          login username pass ;;
          ret tt)
         (fun exception =>
            emit "error" (PText ("Could not authenticate with coordinator: " +:+ exn_text exception))) ;;
       try_catch
         (emit "log" (PText ("Trying join room: " +:+ coordinator (settings w))) ;;
          request (JoinRoom (coordinator (settings w))) ;;
          ret tt)
         (fun exception =>
            emit "error" (PText ("Could not join coordinator: " +:+ exn_text exception)))
     else ret tt) ;;
    modify (add_console ("Actor Registered: " +:+ actor_id E actor +:+ " " +:+ actor_json E actor)) ;;
    emit "actor" (PText (actor_id E actor)) ;;
    ret (ActorData actor).

Definition _handleMatrixMessage (msg : MatrixEvent) : M unit :=
  actor <- _ensureUser (sender msg) ;;
  if String.eqb (etype msg) "m.room.message"
  then emit "activity"
         (PActivity (actor_id E actor) None (body msg)
                    ("/rooms/" +:+ room_id msg))
  else emit "warning" (PText ("Unhandled Matrix message type: " +:+ etype msg)).

Definition _handleClientSync (st : string) : M unit :=
  if String.eqb (trim st) "PREPARED"
  then
    emit "message" (PClientSync (now E) st) ;;
    emit "prepared" (PText st)
  else
    emit "error" (PGenericError ("Unhandled sync event state: " +:+ st)) ;;
    exit.

Definition _handleRoomTimeline (event : MatrixEvent) (room : Room) : M unit :=
  actor <- _ensureUser (sender event) ;;
  if String.eqb (etype event) "m.room.message"
  then
    _syncState ;;
    emit "activity"
      (PActivity (actor_id E actor) (Some (event_id event)) (body event)
                 ("/rooms/" +:+ roomId room))
  else emit "warning" (PText ("Unhandled Matrix message type: " +:+ etype event)).

(** The handler that [start] binds to 'RoomMember.membership'. *)
Definition membership_handler (member : Member) : M unit :=
  w <- get ;;
  if autojoin (settings w)
     && String.eqb (membership member) "invite"
     && String.eqb (userId member) (handle (settings w))
  then request_detached (JoinRoom (m_roomId member))
  else ret tt.

Definition start : M unit :=
  set_status (Some "STARTING") ;;
  emit "log" (PText "[SERVICES:MATRIX] Starting...") ;;
  listen Sync ;;
  listen Activity ;;
  listen Prepared ;;
  w <- get ;;
  (if connect (settings w) then
     request (StartClient (sync_limit (settings w))) ;;
     request (JoinRoom (coordinator (settings w))) ;;
     ret tt
   else ret tt) ;;
  listen Membership ;;
  set_status (Some "STARTED") ;;
  emit "log" (PText "[SERVICES:MATRIX] Started!").

Definition stop : M unit :=
  set_status (Some "STOPPING") ;;
  set_status (Some "STOPPED") ;;
  ret tt.

(** ** Callbacks delivered by the client *)

(** 'sync': every handler bound with [once] runs and is unbound. *)
Definition deliver_sync (st : string) : M unit :=
  w <- get ;;
  modify (with_listeners (fun l =>
    mkListeners 0 (on_timeline l) (on_membership l) (on_activity l) (on_prepared l))) ;;
  repeatM (sync_once (listeners w)) (_handleClientSync st).

Definition deliver_timeline (event : MatrixEvent) (room : Room) : M unit :=
  w <- get ;;
  repeatM (on_timeline (listeners w)) (_handleRoomTimeline event room).

Definition deliver_membership (member : Member) : M unit :=
  w <- get ;;
  repeatM (on_membership (listeners w)) (membership_handler member).

(** ** Histories of an adapter *)

Inductive Op :=
| CallStart
| CallStop
| CallGetId
| CallRegister (username pass : option string)
| CallLogin (username pass : string)
| CallRegisterActor (object : RegObject)
| CallReact (eventID emoji : string)
| CallRedact (eventID : string)
| CallHandleMatrixMessage (msg : MatrixEvent)
| ClientSync (st : string)
| ClientTimeline (event : MatrixEvent) (room : Room)
| ClientMembership (member : Member)
| ClientRooms (known : list Room).

Definition forget {A} (c : M A) : M unit := c ;; ret tt.

Definition step (op : Op) : M unit :=
  match op with
  | CallStart => start
  | CallStop => stop
  | CallGetId => forget get_id
  | CallRegister u p => forget (register u p)
  | CallLogin u p => forget (login u p)
  | CallRegisterActor o => forget (_registerActor o)
  | CallReact e k => forget (_react e k)
  | CallRedact e => _redact e
  | CallHandleMatrixMessage m => _handleMatrixMessage m
  | ClientSync st => deliver_sync st
  | ClientTimeline e r => deliver_timeline e r
  | ClientMembership m => deliver_membership m
  | ClientRooms known => modify (fun w =>
      mkWorld (settings w) (state w) (listeners w) known (emitted w)
              (requests w) (console w))
  end.

(** A history runs on after an exception, and ends when the process exits. *)
Fixpoint run (ops : list Op) (w : World) : World :=
  match ops with
  | [] => w
  | op :: rest =>
      match step op w with
      | (Exit, w') => w'
      | (_, w') => run rest w'
      end
  end.

End Adapter.

(** ** Outbound messages and reactions *)

(** The [msg] argument of [_send]: [{ object: { content } }]; the argument
    itself and its [object] may be null or missing. *)
Record MessageObject := mkMessageObject { content : option string }.

Record OutMessage := mkOutMessage { object : option MessageObject }.

(** [event.event.content['m.relates_to']], with the two fields read from it. *)
Record Relation := mkRelation {
  rel_event_id : option string;
  rel_key : option string
}.

(** A timeline event together with its relation, as [_getReactions] reads it. *)
Record RelatedEvent := mkRelatedEvent {
  base : MatrixEvent;
  relates_to : option Relation
}.

(** [{ userId: event.getSender(), key: ... }] *)
Record ReactionEntry := mkReactionEntry {
  reaction_userId : string;
  reaction_key : option string
}.

(** The test of [_getReactions]: an 'm.reaction' whose relation names the id. *)
Definition reacts_to (eventID : string) (event : RelatedEvent) : bool :=
  String.eqb (etype (base event)) "m.reaction"
  && match relates_to event with
     | Some rel =>
         match rel_event_id rel with
         | Some id => String.eqb id eventID
         | None => false
         end
     | None => false
     end.

Definition reaction_of (event : RelatedEvent) : ReactionEntry :=
  mkReactionEntry (sender (base event))
    (match relates_to event with
     | Some rel => rel_key rel
     | None => None
     end).

(** The inner loop of [_getReactions]: indices [j - 1] down to [0], pushing
    onto [reactions]. *)
Fixpoint collect_timeline (eventID : string) (tl : list RelatedEvent) (j : nat)
  (reactions : list ReactionEntry) : list ReactionEntry :=
  match j with
  | O => reactions
  | S j' =>
      match tl !! j' with
      | Some event =>
          if reacts_to eventID event
          then collect_timeline eventID tl j' (reactions ++ [reaction_of event])
          else collect_timeline eventID tl j' reactions
      | None => collect_timeline eventID tl j' reactions
      end
  end.

(** The outer loop of [_getReactions]; [timelines !! i] is [rooms[i].timeline]. *)
Fixpoint collect_rooms (eventID : string) (timelines : list (list RelatedEvent))
  (i : nat) (reactions : list ReactionEntry) : list ReactionEntry :=
  match i with
  | O => reactions
  | S i' =>
      match timelines !! i' with
      | Some tl =>
          collect_rooms eventID timelines i'
            (collect_timeline eventID tl (length tl) reactions)
      | None => collect_rooms eventID timelines i' reactions
      end
  end.

Definition _getReactions (eventID : string) (timelines : list (list RelatedEvent))
  : list ReactionEntry :=
  collect_rooms eventID timelines (length timelines) [].

Section Outbound.

Variable E : External.

(** [_send(msg, channel = this.settings.coordinator)]; a missing [channel]
    is [None]. *)
Definition _send (msg : option OutMessage) (channel : option string) : M string :=
  w <- get ;;
  let channel := default (coordinator (settings w)) channel in
  body <- match msg with
          | Some m =>
              match object m with
              | Some o => ret (content o)
              | None => ret None
              end
          | None => throw (TypeError "object")
          end ;;
  result <- request E (SendEvent channel "m.room.message" (Text body)) ;;
  ret result.

Definition alert (msg : option string) : M unit :=
  _send (Some (mkOutMessage (Some (mkMessageObject msg)))) None ;;
  ret tt.

End Outbound.

(** ** Sample collaborators, for running the model *)

Definition sample_actor_id (a : ActorInput) : string :=
  match a with
  | OfId id => "id:" +:+ id
  | OfPubkey pk => "pubkey:" +:+ pk
  end.

(** A client that resolves every request. *)
Definition accepting : External :=
  mkExternal sample_actor_id (fun _ => "{}") (fun _ _ => Resolved "$event")
             "hashpass" "2020-01-01T00:00:00.000Z".

(** A client that rejects every request. *)
Definition rejecting : External :=
  mkExternal sample_actor_id (fun _ => "{}") (fun _ _ => Rejected "M_FORBIDDEN")
             "hashpass" "2020-01-01T00:00:00.000Z".

(** A client that refuses to join rooms and resolves everything else. *)
Definition join_refused : External :=
  mkExternal sample_actor_id (fun _ => "{}")
             (fun _ r => match r with
                         | JoinRoom _ => Rejected "M_FORBIDDEN"
                         | _ => Resolved "$event"
                         end)
             "hashpass" "2020-01-01T00:00:00.000Z".

(** The defaults, with the network start-up switched off. *)
Definition offline_settings : Settings :=
  mkSettings true "@fabric:fabric.pub" "!pPjIUAOkwmgXeICrzT:fabric.pub" 10000 false.

(** The number of emissions called [n]. *)
Definition count_named (n : string) (l : list Emission) : nat :=
  length (filter (fun e => name e = n) l).

(** ** Vocabulary of the properties *)

(** [keeps P c]: running [c] from a world in [P] ends in a world in [P],
    whatever the outcome. *)
Definition keeps {A} (P : World -> Prop) (c : M A) : Prop :=
  forall w, P w -> P (snd (c w)).

(** Ensure-before-use, for one emission: an 'activity' names an actor that
    the state seen at that moment holds, derived from a user id that the
    state maps to it. *)
Definition activity_ensured (E : External) (e : Emission) : Prop :=
  name e = "activity" ->
  exists id oid c t,
    payload e = PActivity (actor_id E (OfId id)) oid c t /\
    is_Some (actors (seen e) !! actor_id E (OfId id)) /\
    users (seen e) !! id = Some (mkUserEntry (actor_id E (OfId id))).

(** The 'ready' count and the timeline handlers of [w'] exceed those of [w]
    by [k], everything else but the stream being as in [w]. *)
Definition readied (k : nat) (w w' : World) : Prop :=
  count_named "ready" (emitted w') = count_named "ready" (emitted w) + k /\
  on_timeline (listeners w') = on_timeline (listeners w) + k /\
  on_prepared (listeners w') = on_prepared (listeners w) /\
  on_membership (listeners w') = on_membership (listeners w) /\
  on_activity (listeners w') = on_activity (listeners w) /\
  state w' = state w /\ requests w' = requests w /\ settings w' = settings w.

(** Every user of the registry is mapped to the actor derived from its id,
    and that actor is stored. *)
Definition registry_consistent (E : External) (s : LocalState) : Prop :=
  forall id x, users s !! id = Some x ->
    x = mkUserEntry (actor_id E (OfId id)) /\
    is_Some (actors s !! actor_id E (OfId id)).

(** The user ids that [op] hands to [_ensureUser], on an adapter with the
    settings [s]. *)
Definition ensured_by (s : Settings) (op : Op) : list string :=
  match op with
  | CallGetId => [handle s]
  | CallHandleMatrixMessage msg => [sender msg]
  | ClientTimeline event _ => [sender event]
  | _ => []
  end.

(** No key written by the history is '__proto__', which on a plain object
    names the prototype and not a property: neither an actor id nor a user
    id that the history hands to [_ensureUser]. *)
Definition plain_keys (E : External) (s : Settings) (ops : list Op) : Prop :=
  (forall a, actor_id E a <> "__proto__") /\
  forall op id, In op ops -> In id (ensured_by s op) -> id <> "__proto__".






(** The timeline of [room] holds no event with the id [eventID]. *)
Definition absent_from (eventID : string) (room : Room) : Prop :=
  forall k e, timeline room !! k = Some e -> event_id e <> eventID.

(** * Properties *)

(** ** Running the combinators *)

Lemma repeatM_ret (n : nat) (w : World) : repeatM n (ret tt) w = (Return tt, w).
Proof.
  induction n as [|n IH]; [reflexivity|].
  simpl. unfold bind at 1. simpl. exact IH.
Qed.

(** ** Properties kept by every method *)

Section Keeps.

Variable E : External.
Variable P : World -> Prop.

Lemma keeps_ret {A} (a : A) : keeps P (ret a).
Proof. intros w H. exact H. Qed.

Lemma keeps_throw {A} (e : Exn) : keeps P (@throw A e).
Proof. intros w H. exact H. Qed.

Lemma keeps_exit {A} : keeps P (@exit A).
Proof. intros w H. exact H. Qed.

Lemma keeps_get : keeps P get.
Proof. intros w H. exact H. Qed.

Lemma keeps_bind {A B} (c : M A) (k : A -> M B) :
  keeps P c -> (forall a, keeps P (k a)) -> keeps P (bind c k).
Proof.
  intros Hc Hk w H. unfold bind.
  specialize (Hc w H). destruct (c w) as [[a|e|] w']; simpl in *; auto.
  apply Hk, Hc.
Qed.

Lemma keeps_try_catch {A} (c : M A) (h : Exn -> M A) :
  keeps P c -> (forall e, keeps P (h e)) -> keeps P (try_catch c h).
Proof.
  intros Hc Hh w H. unfold try_catch.
  specialize (Hc w H). destruct (c w) as [[a|e|] w']; simpl in *; auto.
  apply Hh, Hc.
Qed.

Lemma keeps_repeatM (n : nat) (c : M unit) : keeps P c -> keeps P (repeatM n c).
Proof.
  intros Hc. induction n as [|n IH]; simpl.
  - apply keeps_ret.
  - apply keeps_bind; auto.
Qed.

Lemma keeps_modify (f : World -> World) :
  (forall w, P w -> P (f w)) -> keeps P (modify f).
Proof. intros Hf w H. apply Hf, H. Qed.

Lemma keeps_if {A} (b : bool) (c1 c2 : M A) :
  keeps P c1 -> keeps P c2 -> keeps P (if b then c1 else c2).
Proof. destruct b; auto. Qed.

(** What [P] has to tolerate: every elementary change the adapter makes. *)
Hypothesis P_listeners : forall f w, P w -> P (with_listeners f w).
Hypothesis P_request : forall r w, P w -> P (add_request r w).
Hypothesis P_console : forall l w, P w -> P (add_console l w).
Hypothesis P_rooms : forall known w, P w ->
  P (mkWorld (settings w) (state w) (listeners w) known (emitted w)
             (requests w) (console w)).
Hypothesis P_store_actor : forall pk o w, P w ->
  P (with_state (store_actor (actor_id E (OfPubkey pk)) (Memory o)) w).
Hypothesis P_ensure : forall id w, P w -> P (snd (_ensureUser E id w)).
Hypothesis P_announce : forall n p w,
  n <> "activity" -> P w -> P (snd (announce n p w)).
Hypothesis P_activity : forall id oid c t w, P w ->
  P (snd (announce "activity" (PActivity (actor_id E (OfId id)) oid c t)
            (snd (_ensureUser E id w)))).

Lemma keeps_listen ev : keeps P (listen ev).
Proof. apply keeps_modify. intros w. apply P_listeners. Qed.

Lemma keeps_request r : keeps P (request E r).
Proof.
  intros w H. unfold request.
  destruct (respond E (requests w) r); simpl; auto.
Qed.

Lemma keeps_request_detached r : keeps P (request_detached r).
Proof. apply keeps_modify. intros w. apply P_request. Qed.

Lemma keeps_announce n p : n <> "activity" -> keeps P (announce n p).
Proof. intros Hn w H. apply P_announce; auto. Qed.

Lemma keeps_set_status_other v :
  v <> "READY" -> keeps P (set_status (Some v)).
Proof.
  intros Hv w H. unfold set_status. simpl.
  destruct (String.eqb_spec v "READY") as [->|_]; [contradiction|exact H].
Qed.

Lemma keeps_handlePreparedEvent p : keeps P (_handlePreparedEvent p).
Proof.
  unfold _handlePreparedEvent, _syncState, _publishState.
  repeat (apply keeps_bind; intros); auto using keeps_listen, keeps_ret.
  apply keeps_announce. discriminate.
Qed.

Lemma keeps_emit n p : n <> "activity" -> keeps P (emit n p).
Proof.
  intros Hn. unfold emit.
  apply keeps_bind; [apply keeps_announce, Hn|intros _].
  apply keeps_bind; [apply keeps_get|intros w].
  destruct (String.eqb_spec n "activity") as [->|_]; [contradiction|].
  apply keeps_if; [|apply keeps_ret].
  apply keeps_repeatM, keeps_handlePreparedEvent.
Qed.

Lemma keeps_ensureUser id : keeps P (_ensureUser E id).
Proof. intros w H. apply P_ensure, H. Qed.

Lemma keeps_console line : keeps P (modify (add_console line)).
Proof. apply keeps_modify. intros w. apply P_console. Qed.

Lemma keeps_store_actor pk o :
  keeps P (modify (with_state (store_actor (actor_id E (OfPubkey pk)) (Memory o)))).
Proof. apply keeps_modify. intros w. apply P_store_actor. Qed.

(** Elementary steps first, then the combinators. *)
Ltac keeps_step :=
  first
    [ apply keeps_ret | apply keeps_throw | apply keeps_exit | apply keeps_get
    | apply keeps_listen | apply keeps_request | apply keeps_request_detached
    | apply keeps_console | apply keeps_store_actor | apply keeps_ensureUser
    | apply keeps_emit; discriminate
    | apply keeps_set_status_other; discriminate
    | apply keeps_bind; [|intros ?]
    | apply keeps_try_catch; [|intros ?]
    | apply keeps_if
    | apply keeps_repeatM ].

Lemma keeps_getEvent eventID : keeps P (_getEvent eventID).
Proof. unfold _getEvent. repeat keeps_step. Qed.

Lemma keeps_room_of ev : keeps P (room_of ev).
Proof. destruct ev; keeps_step. Qed.

Lemma keeps_react eventID emoji : keeps P (_react E eventID emoji).
Proof.
  unfold _react.
  apply keeps_bind; [apply keeps_getEvent|intros ev].
  apply keeps_bind; [apply keeps_room_of|intros room].
  repeat keeps_step.
Qed.

Lemma keeps_redact eventID : keeps P (_redact eventID).
Proof.
  unfold _redact.
  apply keeps_bind; [apply keeps_getEvent|intros ev].
  apply keeps_bind; [apply keeps_room_of|intros room].
  repeat keeps_step.
Qed.

Lemma keeps_register u p : keeps P (register E u p).
Proof. unfold register. repeat keeps_step. Qed.

Lemma keeps_checkUsernameAvailable u : keeps P (_checkUsernameAvailable E u).
Proof. unfold _checkUsernameAvailable. repeat keeps_step. Qed.

Lemma keeps_registerActor o : keeps P (_registerActor E o).
Proof.
  unfold _registerActor, login.
  apply keeps_if; [apply keeps_throw|].
  apply keeps_bind; [apply keeps_store_actor|intros _].
  apply keeps_bind; [apply keeps_get|intros w].
  apply keeps_bind; [|intros _; repeat keeps_step].
  apply keeps_if; [|apply keeps_ret].
  apply keeps_bind; [|intros available; apply keeps_bind; [|intros _]].
  - apply keeps_try_catch; [|intros ex; repeat keeps_step].
    apply keeps_bind; [repeat keeps_step|intros _].
    apply keeps_bind; [apply keeps_checkUsernameAvailable|intros a].
    repeat keeps_step.
  - apply keeps_if; [|apply keeps_ret].
    apply keeps_try_catch; [|intros ex; repeat keeps_step].
    apply keeps_bind; [repeat keeps_step|intros _].
    apply keeps_bind; [apply keeps_register|intros r].
    repeat keeps_step.
  - repeat keeps_step.
Qed.

(** Emitting 'activity' right after [_ensureUser]: the bound handlers
    ([_handleMatrixActivity]) do nothing. *)
Lemma ensure_then_activity id oid c t (w : World) :
  (_ensureUser E id ;;
   emit "activity" (PActivity (actor_id E (OfId id)) oid c t)) w
  = (Return tt,
     snd (announce "activity" (PActivity (actor_id E (OfId id)) oid c t)
            (snd (_ensureUser E id w)))).
Proof.
  unfold bind, _ensureUser, emit, bind, modify, get, ret, announce; simpl.
  unfold _handleMatrixActivity. apply repeatM_ret.
Qed.

Lemma keeps_handleMatrixMessage msg : keeps P (_handleMatrixMessage E msg).
Proof.
  unfold _handleMatrixMessage. intros w H.
  destruct (String.eqb (etype msg) "m.room.message") eqn:Ht.
  - change (P (snd ((_ensureUser E (sender msg) ;;
      emit "activity" (PActivity (actor_id E (OfId (sender msg))) None
        (body msg) ("/rooms/" +:+ room_id msg))) w))).
    rewrite ensure_then_activity. simpl. apply P_activity, H.
  - revert w H. apply keeps_bind; [apply keeps_ensureUser|intros a].
    cbv beta iota. repeat keeps_step.
Qed.

Lemma keeps_handleRoomTimeline event room : keeps P (_handleRoomTimeline E event room).
Proof.
  unfold _handleRoomTimeline. intros w H.
  destruct (String.eqb (etype event) "m.room.message") eqn:Ht.
  - change (P (snd ((_ensureUser E (sender event) ;;
      emit "activity" (PActivity (actor_id E (OfId (sender event)))
        (Some (event_id event)) (body event) ("/rooms/" +:+ roomId room))) w))).
    rewrite ensure_then_activity. simpl. apply P_activity, H.
  - revert w H. apply keeps_bind; [apply keeps_ensureUser|intros a].
    cbv beta iota. repeat keeps_step.
Qed.

Lemma keeps_handleClientSync st : keeps P (_handleClientSync E st).
Proof. unfold _handleClientSync. repeat keeps_step. Qed.

Lemma keeps_membership_handler member : keeps P (membership_handler member).
Proof. unfold membership_handler. repeat keeps_step. Qed.

Lemma keeps_start : keeps P (start E).
Proof. unfold start. repeat keeps_step. Qed.

Lemma keeps_stop : keeps P stop.
Proof. unfold stop. repeat keeps_step. Qed.

Lemma keeps_step_op op : keeps P (step E op).
Proof.
  destruct op; simpl; unfold forget, get_id, login, deliver_sync,
    deliver_timeline, deliver_membership.
  - apply keeps_start.
  - apply keeps_stop.
  - repeat keeps_step.
  - apply keeps_bind; [apply keeps_register|intros; apply keeps_ret].
  - repeat keeps_step.
  - apply keeps_bind; [apply keeps_registerActor|intros; apply keeps_ret].
  - apply keeps_bind; [apply keeps_react|intros; apply keeps_ret].
  - apply keeps_redact.
  - apply keeps_handleMatrixMessage.
  - apply keeps_bind; [apply keeps_get|intros w].
    apply keeps_bind; [apply keeps_modify; intros w'; apply P_listeners|intros _].
    apply keeps_repeatM, keeps_handleClientSync.
  - apply keeps_bind; [apply keeps_get|intros w].
    apply keeps_repeatM, keeps_handleRoomTimeline.
  - apply keeps_bind; [apply keeps_get|intros w].
    apply keeps_repeatM, keeps_membership_handler.
  - apply keeps_modify. intros w. apply P_rooms.
Qed.

(** [P] holds along every history. *)
Lemma keeps_run ops : forall w, P w -> P (run E ops w).
Proof.
  induction ops as [|op rest IH]; intros w H; simpl; [exact H|].
  pose proof (keeps_step_op op w H) as H'.
  destruct (step E op w) as [[[]|e|] w']; simpl in H'; auto.
Qed.

End Keeps.

(** ** The status field *)

(** No method assigns the status: the setter accepts 'READY' only, and no
    call site passes it. *)
Lemma status_never_assigned (E : External) (ops : list Op) (w : World) :
  status (state (run E ops w)) = status (state w).
Proof.
  apply (keeps_run E (fun w' => status (state w') = status (state w)));
    try reflexivity; intros; simpl; assumption.
Qed.

(** C1, on the code: an adapter built with [connect: false] completes
    [start()] and then [stop()], and the status getter answers 'READY' after
    each of them, neither 'STARTED' nor 'STOPPED'. *)
Theorem start_stop_leave_status_READY (E : External) (known : list Room) :
  exists w1 w2,
    start E (constructor offline_settings known) = (Return tt, w1) /\
    get_status w1 = (Return "READY", w1) /\
    stop w1 = (Return tt, w2) /\
    get_status w2 = (Return "READY", w2).
Proof. do 2 eexists. repeat split. Qed.

(** ** The sync callback *)

(** C2, as amended: on an adapter whose handlers [start()] bound once, a
    sync callback whose trimmed status is 'PREPARED' returns after emitting
    'message', 'prepared' and then 'ready', once each; any other status emits
    one 'error' and exits the process. Either way the callback assigns
    nothing to the local state and makes no request. *)
Theorem handleClientSync_prepared_or_fatal (E : External) (w : World) (st : string)
  (Hbound : on_prepared (listeners w) = 1) :
  let r := _handleClientSync E st w in
  state (snd r) = state w /\
  requests (snd r) = requests w /\
  if String.eqb (trim st) "PREPARED"
  then fst r = Return tt /\
       emitted (snd r) = (emitted w ++
         [ mkEmission "message" (PClientSync (now E) st) (state w) (requests w);
           mkEmission "prepared" (PText st) (state w) (requests w);
           mkEmission "ready" PNone (state w) (requests w) ])%list /\
       count_named "ready" (emitted (snd r)) = S (count_named "ready" (emitted w))
  else fst r = Exit /\
       emitted (snd r) = (emitted w ++
         [ mkEmission "error" (PGenericError ("Unhandled sync event state: " +:+ st))
                      (state w) (requests w) ])%list.
Proof.
  unfold _handleClientSync.
  destruct (String.eqb (trim st) "PREPARED").
  - unfold emit, bind, announce, modify, get, ret; simpl.
    rewrite Hbound. simpl.
    unfold bind, _handlePreparedEvent, listen, _syncState, _publishState,
      bind, announce, modify, ret; simpl.
    repeat split.
    + rewrite <- !app_assoc. reflexivity.
    + unfold count_named. rewrite <- !app_assoc.
      rewrite (filter_app _ (emitted w)), length_app. simpl. lia.
  - unfold emit, bind, announce, modify, get, ret, exit; simpl.
    repeat split.
Qed.

Lemma handleClientSync_prepared_or_fatal_witness :
  let w := snd (start accepting (constructor default_settings [])) in
  on_prepared (listeners w) = 1 /\
  fst (_handleClientSync accepting "PREPARED" w) = Return tt /\
  count_named "ready" (emitted (snd (_handleClientSync accepting "PREPARED" w))) = 1.
Proof.
  split; [reflexivity|].
  pose proof (handleClientSync_prepared_or_fatal accepting
    (snd (start accepting (constructor default_settings []))) "PREPARED"
    eq_refl) as H.
  simpl in H. destruct H as (_ & _ & Hr & _ & Hc).
  split; [exact Hr|exact Hc].
Defined.

(** C2, as stated, fails: the room join is refused, so [start()] never gets
    to its last assignment; the 'PREPARED' callback then runs and the status
    is 'READY', not 'STARTED'. *)
Lemma sync_prepared_does_not_reach_STARTED :
  let w := snd (start join_refused (constructor default_settings [])) in
  trim "PREPARED" = "PREPARED" /\
  status (state (snd (_handleClientSync join_refused "PREPARED" w))) = "READY" /\
  status (state (snd (_handleClientSync join_refused "PREPARED" w))) <> "STARTED".
Proof. repeat split. discriminate. Qed.

(** ** The actor registry *)

Lemma ensureUser_runs (E : External) (id : string) (w : World) :
  _ensureUser E id w =
    (Return (OfId id),
     with_state (fun s =>
       store_user id (mkUserEntry (actor_id E (OfId id)))
         (store_actor (actor_id E (OfId id)) (ActorData (OfId id)) s)) w).
Proof. reflexivity. Qed.


Example ensureUser_same_id_in_any_state :
  let w := constructor default_settings [] in
  let w' := run accepting [CallStart; CallGetId] w in
  fst (_ensureUser accepting "@alice:fabric.pub" w) = Return (OfId "@alice:fabric.pub") /\
  fst (_ensureUser accepting "@alice:fabric.pub" w') = Return (OfId "@alice:fabric.pub").
Proof. split; reflexivity. Qed.

(** *** Digests collide *)







(** Entries made by [_ensureUser] are never removed: whatever runs between
    the lookup and a later use, the actor is still stored and the user is
    still mapped to it. *)
Lemma ensured_entries_persist (E : External) (id : string) (ops : list Op) (w : World) :
  is_Some (actors (state w) !! actor_id E (OfId id)) ->
  users (state w) !! id = Some (mkUserEntry (actor_id E (OfId id))) ->
  is_Some (actors (state (run E ops w)) !! actor_id E (OfId id)) /\
  users (state (run E ops w)) !! id = Some (mkUserEntry (actor_id E (OfId id))).
Proof.
  intros Ha Hu.
  apply (keeps_run E (fun w' =>
    is_Some (actors (state w') !! actor_id E (OfId id)) /\
    users (state w') !! id = Some (mkUserEntry (actor_id E (OfId id)))));
    try (intros; simpl; assumption); [| | |split; assumption].
  - intros pk o w' [H1 H2]. simpl. split; [|exact H2].
    apply lookup_insert_is_Some'. auto.
  - intros id' w' [H1 H2]. simpl. split.
    + apply lookup_insert_is_Some'. auto.
    + destruct (decide (id' = id)) as [->|Hd].
      * apply lookup_insert_eq.
      * rewrite lookup_insert_ne; auto.
  - intros id' oid c t w' [H1 H2]. simpl. split.
    + apply lookup_insert_is_Some'. auto.
    + destruct (decide (id' = id)) as [->|Hd].
      * apply lookup_insert_eq.
      * rewrite lookup_insert_ne; auto.
Qed.

(** C8: along every history of an adapter, each 'activity' emission names an
    actor derived from a user id such that, in the state at the moment of the
    emission, the actor is stored under [actors] and the user id is mapped to
    it under [users]. *)
Theorem activity_is_ensured_before_use (E : External) (s : Settings)
  (known : list Room) (ops : list Op) :
  Forall (activity_ensured E) (emitted (run E ops (constructor s known))).
Proof.
  apply (keeps_run E (fun w => Forall (activity_ensured E) (emitted w)));
    try (intros; simpl; assumption).
  - intros n p w Hn H. simpl. apply Forall_app. split; [exact H|].
    apply Forall_singleton. intros Hname. simpl in Hname. contradiction.
  - intros id oid c t w H. simpl. apply Forall_app. split; [exact H|].
    apply Forall_singleton. intros _. exists id, oid, c, t. simpl.
    split; [reflexivity|]. split.
    + rewrite lookup_insert_eq. eauto.
    + apply lookup_insert_eq.
  - simpl. constructor.
Qed.

(** ** Strings inside strings *)

Lemma append_empty_r (s : string) : s +:+ "" = s.
Proof.
  induction s as [|c s IH]; [reflexivity|].
  change (String c (s +:+ "") = String c s). f_equal. exact IH.
Qed.

Lemma append_assoc (s t u : string) : (s +:+ t) +:+ u = s +:+ t +:+ u.
Proof.
  induction s as [|c s IH]; [reflexivity|].
  change (String c ((s +:+ t) +:+ u) = String c (s +:+ t +:+ u)).
  f_equal. exact IH.
Qed.

Lemma contains_suffix (pre a : string) : contains (pre +:+ a) a.
Proof. exists pre, "". rewrite append_empty_r. reflexivity. Qed.

Lemma contains_append_r (pre s a : string) : contains s a -> contains (pre +:+ s) a.
Proof.
  intros (p & q & ->). exists (pre +:+ p), q.
  symmetry. apply append_assoc.
Qed.

(** ** The timeline handler *)

Lemma handleRoomTimeline_runs (E : External) (w : World)
  (event : MatrixEvent) (room : Room) :
  _handleRoomTimeline E event room w =
    (Return tt,
     snd ((if String.eqb (etype event) "m.room.message"
           then announce "activity"
                  (PActivity (actor_id E (OfId (sender event)))
                     (Some (event_id event)) (body event)
                     ("/rooms/" +:+ roomId room))
           else announce "warning"
                  (PText ("Unhandled Matrix message type: " +:+ etype event)))
            (snd (_ensureUser E (sender event) w)))).
Proof.
  unfold _handleRoomTimeline.
  destruct (String.eqb (etype event) "m.room.message").
  - apply (ensure_then_activity E (sender event)).
  - reflexivity.
Qed.

(** C4: the room-timeline handler always returns and adds exactly one
    emission to the stream, made once the sender is ensured. For an
    'm.room.message' event it is an 'activity' whose actor is the id of
    [_ensureUser] of the sender, whose content is the body and whose target
    contains the room id; for any other type it is a 'warning' whose text
    contains the type. *)
Theorem handleRoomTimeline_emits_one (E : External) (w : World)
  (event : MatrixEvent) (room : Room) :
  exists a w1 w' e,
    _ensureUser E (sender event) w = (Return a, w1) /\
    _handleRoomTimeline E event room w = (Return tt, w') /\
    emitted w' = (emitted w ++ [e])%list /\
    seen e = state w1 /\
    if String.eqb (etype event) "m.room.message"
    then name e = "activity" /\
         exists target,
           payload e = PActivity (actor_id E a) (Some (event_id event))
                                 (body event) target /\
           contains target (roomId room)
    else name e = "warning" /\
         exists text, payload e = PText text /\ contains text (etype event).
Proof.
  exists (OfId (sender event)), (snd (_ensureUser E (sender event) w)).
  rewrite handleRoomTimeline_runs.
  destruct (String.eqb (etype event) "m.room.message").
  - do 2 eexists. repeat split.
    eexists. split; [reflexivity|]. apply contains_suffix.
  - do 2 eexists. repeat split.
    eexists. split; [reflexivity|]. apply contains_suffix.
Qed.

Example timeline_message_U1_hello :
  let event := mkEvent "$e1" "m.room.message" "U1" "!R:fabric.pub" (Some "hello") in
  let room := mkRoom "!R:fabric.pub" [event] in
  let w := snd (start accepting (constructor default_settings [room])) in
  map (fun e => (name e, payload e))
      (drop (length (emitted w))
            (emitted (snd (_handleRoomTimeline accepting event room w))))
  = [("activity", PActivity "id:U1" (Some "$e1") (Some "hello") "/rooms/!R:fabric.pub")].
Proof. reflexivity. Qed.

Example timeline_reaction_warns :
  let event := mkEvent "$e2" "m.reaction" "U1" "!R:fabric.pub" None in
  let room := mkRoom "!R:fabric.pub" [event] in
  let w := constructor default_settings [room] in
  map (fun e => (name e, payload e))
      (emitted (snd (_handleRoomTimeline accepting event room w)))
  = [("warning", PText "Unhandled Matrix message type: m.reaction")].
Proof. reflexivity. Qed.

(** ** Looking an event up *)

Section Lookup.

Variable eventID : string.

(** What the inner loop finds is the last event of the timeline, below
    index [j], that carries the id. *)
Lemma scan_timeline_Some (tl : list MatrixEvent) (j : nat) (e : MatrixEvent) :
  scan_timeline eventID tl j = Some e ->
  exists k, k < j /\ tl !! k = Some e /\ event_id e = eventID /\
    forall k' e', k < k' < j -> tl !! k' = Some e' -> event_id e' <> eventID.
Proof.
  induction j as [|j IH]; simpl; [discriminate|].
  destruct (tl !! j) as [x|] eqn:Hx.
  - destruct (String.eqb_spec (event_id x) eventID) as [Hid|Hid].
    + intros [= <-]. exists j. repeat split; auto. intros k' e' Hk. lia.
    + intros H. destruct (IH H) as (k & Hk & Hl & He & Hlast).
      exists k. repeat split; auto.
      intros k' e' Hk' Hl'. destruct (decide (k' = j)) as [->|Hd].
      * rewrite Hx in Hl'. injection Hl' as <-. exact Hid.
      * apply (Hlast k'); auto. lia.
  - intros H. destruct (IH H) as (k & Hk & Hl & He & Hlast).
    exists k. repeat split; auto.
    intros k' e' Hk' Hl'. destruct (decide (k' = j)) as [->|Hd].
    + congruence.
    + apply (Hlast k'); auto. lia.
Qed.

Lemma scan_timeline_None (tl : list MatrixEvent) (j : nat) :
  scan_timeline eventID tl j = None ->
  forall k e, k < j -> tl !! k = Some e -> event_id e <> eventID.
Proof.
  induction j as [|j IH]; simpl; intros H k e Hk Hl; [lia|].
  destruct (tl !! j) as [x|] eqn:Hx.
  - destruct (String.eqb_spec (event_id x) eventID) as [Hid|Hid]; [discriminate|].
    destruct (decide (k = j)) as [->|Hd].
    + rewrite Hx in Hl. injection Hl as <-. exact Hid.
    + apply (IH H k); auto. lia.
  - destruct (decide (k = j)) as [->|Hd]; [congruence|].
    apply (IH H k); auto. lia.
Qed.

Lemma scan_whole_timeline_None (room : Room) :
  scan_timeline eventID (timeline room) (length (timeline room)) = None ->
  absent_from eventID room.
Proof.
  intros H k e Hl. apply (scan_timeline_None _ _ H k); auto.
  apply lookup_lt_Some in Hl. exact Hl.
Qed.

(** What the outer loop finds sits in the last room, below index [i], whose
    timeline carries the id, and is the last such event of that timeline. *)
Lemma scan_rooms_Some (rs : list Room) (i : nat) (e : MatrixEvent) :
  scan_rooms eventID rs i = Some e ->
  exists n room k,
    n < i /\ rs !! n = Some room /\ timeline room !! k = Some e /\
    event_id e = eventID /\
    (forall k' e', k < k' -> timeline room !! k' = Some e' -> event_id e' <> eventID) /\
    (forall n' room', n < n' < i -> rs !! n' = Some room' -> absent_from eventID room').
Proof.
  induction i as [|i IH]; simpl; [discriminate|].
  destruct (rs !! i) as [room|] eqn:Hr.
  - destruct (scan_timeline eventID (timeline room) (length (timeline room)))
      as [x|] eqn:Hs.
    + intros [= <-].
      destruct (scan_timeline_Some _ _ _ Hs) as (k & Hk & Hl & He & Hlast).
      exists i, room, k. split_and!; auto; try lia.
      intros k' e' Hk' Hl'. apply (Hlast k'); auto.
      apply lookup_lt_Some in Hl'. lia.
    + intros H. destruct (IH H) as (n & room0 & k & Hn & Hrn & Hl & He & Hlast & Hafter).
      exists n, room0, k. split_and!; auto.
      intros n' room' Hn' Hr'. destruct (decide (n' = i)) as [->|Hd].
      * rewrite Hr in Hr'. injection Hr' as <-.
        apply scan_whole_timeline_None, Hs.
      * apply (Hafter n'); auto. lia.
  - intros H. destruct (IH H) as (n & room0 & k & Hn & Hrn & Hl & He & Hlast & Hafter).
    exists n, room0, k. split_and!; auto.
    intros n' room' Hn' Hr'. destruct (decide (n' = i)) as [->|Hd]; [congruence|].
    apply (Hafter n'); auto. lia.
Qed.

Lemma scan_rooms_None (rs : list Room) (i : nat) :
  scan_rooms eventID rs i = None ->
  forall n room, n < i -> rs !! n = Some room -> absent_from eventID room.
Proof.
  induction i as [|i IH]; simpl; intros H n room Hn Hr; [lia|].
  destruct (rs !! i) as [room0|] eqn:Hr0.
  - destruct (scan_timeline eventID (timeline room0) (length (timeline room0)))
      as [x|] eqn:Hs; [discriminate|].
    destruct (decide (n = i)) as [->|Hd].
    + rewrite Hr0 in Hr. injection Hr as <-.
      apply scan_whole_timeline_None, Hs.
    + apply (IH H n); auto. lia.
  - destruct (decide (n = i)) as [->|Hd]; [congruence|].
    apply (IH H n); auto. lia.
Qed.

End Lookup.

(** C5: [_getEvent] returns without touching anything. It finds an event
    exactly when some known room's timeline holds one with the id; what it
    finds carries the id and is the latest such event of the last such room
    (the scan runs backward over rooms, and backward over each timeline).
    When it finds none, no timeline holds the id, and [_react] and [_redact]
    both throw a TypeError on reading the null result, with no request made
    and nothing else changed. *)
Theorem getEvent_found_or_react_redact_fail (E : External) (w : World)
  (eventID : string) :
  exists found,
    _getEvent eventID w = (Return found, w) /\
    (is_Some found <->
     exists room e, room ∈ rooms w /\ e ∈ timeline room /\ event_id e = eventID) /\
    match found with
    | Some e =>
        event_id e = eventID /\
        exists n room k,
          rooms w !! n = Some room /\ timeline room !! k = Some e /\
          (forall k' e', k < k' -> timeline room !! k' = Some e' ->
                         event_id e' <> eventID) /\
          (forall n' room', n < n' -> rooms w !! n' = Some room' ->
                            absent_from eventID room')
    | None =>
        (forall room, room ∈ rooms w -> absent_from eventID room) /\
        (forall emoji, _react E eventID emoji w = (Throw (TypeError "event"), w)) /\
        _redact eventID w = (Throw (TypeError "event"), w)
    end.
Proof.
  exists (scan_rooms eventID (rooms w) (length (rooms w))).
  split; [reflexivity|].
  destruct (scan_rooms eventID (rooms w) (length (rooms w))) as [e|] eqn:Hs.
  - destruct (scan_rooms_Some _ _ _ _ Hs)
      as (n & room & k & Hn & Hr & Hl & He & Hlast & Hafter).
    split.
    + split; [intros _|eauto].
      exists room, e. split_and!; auto.
      * apply (list_elem_of_lookup_2 _ n), Hr.
      * apply (list_elem_of_lookup_2 _ k), Hl.
    + split; [exact He|]. exists n, room, k. split_and!; auto.
      intros n' room' Hn' Hr'. apply (Hafter n'); auto.
      apply lookup_lt_Some in Hr'. lia.
  - assert (Habs : forall room, room ∈ rooms w -> absent_from eventID room).
    { intros room Hin. apply list_elem_of_lookup_1 in Hin as [n Hr].
      apply (scan_rooms_None _ _ _ Hs n); auto.
      apply lookup_lt_Some in Hr. exact Hr. }
    split.
    + split; [intros [x Hx]; discriminate|].
      intros (room & e & Hin & Hine & He). exfalso.
      apply list_elem_of_lookup_1 in Hine as [k Hl].
      apply (Habs room Hin k e Hl He).
    + split; [exact Habs|]. split.
      * intros emoji. unfold _react, _getEvent, bind, get, ret. simpl.
        rewrite Hs. reflexivity.
      * unfold _redact, _getEvent, bind, get, ret. simpl.
        rewrite Hs. reflexivity.
Qed.

Example getEvent_takes_the_latest :
  let old := mkEvent "$a" "m.room.message" "U1" "!R1" (Some "first") in
  let new := mkEvent "$a" "m.room.message" "U2" "!R2" (Some "second") in
  let other := mkEvent "$b" "m.reaction" "U1" "!R2" None in
  let w := constructor default_settings
             [mkRoom "!R1" [old]; mkRoom "!R2" [new; other]] in
  fst (_getEvent "$a" w) = Return (Some new) /\
  fst (_getEvent "$c" w) = Return None /\
  _react accepting "$c" "+1" w = (Throw (TypeError "event"), w) /\
  requests (snd (_react accepting "$a" "+1" w))
    = [SendEvent "!R2" "m.reaction" (Reaction "$a" "+1")].
Proof. repeat split. Qed.

(** ** Registration *)

(** C6: [register] throws a validation error, leaving everything as it was
    (no emission, no request), as soon as the username or the password is
    missing or empty. With both present, a rejected registration request is
    swallowed: the request was made once, the exception went to the console,
    and [register] returns null. *)
Theorem register_validates_then_swallows (E : External) (w : World)
  (username pass : option string) :
  (truthy username && truthy pass = false ->
   exists msg, register E username pass w = (Throw (Error msg), w)) /\
  (forall u p e,
     username = Some u -> pass = Some p ->
     truthy username && truthy pass = true ->
     respond E (requests w) (RegisterRequest u p) = Rejected e ->
     exists w',
       register E username pass w = (Return None, w') /\
       requests w' = (requests w ++ [RegisterRequest u p])%list /\
       console w' = (console w ++ ["no reg: " +:+ e])%list /\
       state w' = state w).
Proof.
  split.
  - intros H. unfold register.
    destruct (truthy username); simpl in *.
    + rewrite H. simpl. eauto.
    + eauto.
  - intros u p e -> -> Ht Hr. unfold register.
    apply andb_true_iff in Ht as [Hu Hp]. rewrite Hu, Hp. simpl.
    unfold try_catch, bind, emit, announce, request, modify, get, ret. simpl.
    rewrite Hr. simpl. eexists. repeat split.
Qed.

Lemma register_validates_then_swallows_witness :
  (exists msg, register rejecting (Some "alice") (Some "")
                 (constructor default_settings [])
               = (Throw (Error msg), constructor default_settings [])) /\
  (exists w', register rejecting (Some "alice") (Some "secret")
                (constructor default_settings []) = (Return None, w') /\
              requests w' = [RegisterRequest "alice" "secret"]).
Proof.
  split.
  - apply (register_validates_then_swallows rejecting
             (constructor default_settings []) (Some "alice") (Some "")).
    reflexivity.
  - destruct (proj2 (register_validates_then_swallows rejecting
             (constructor default_settings []) (Some "alice") (Some "secret"))
             "alice" "secret" "M_FORBIDDEN" eq_refl eq_refl eq_refl eq_refl)
      as (w' & H1 & H2 & _).
    exists w'. split; [exact H1|exact H2].
Defined.

(** C7: [_registerActor] applied to an object with no [pubkey] throws the
    validation error and leaves the adapter as it was: no request to the
    client, no emission, and the actors map unchanged. *)
Theorem registerActor_requires_pubkey (E : External) (w : World)
  (object : RegObject) (Hmissing : pubkey object = None) :
  _registerActor E object w = (Throw (Error pubkey_required), w).
Proof. unfold _registerActor. rewrite Hmissing. reflexivity. Qed.

Lemma registerActor_requires_pubkey_witness :
  let w := constructor default_settings [] in
  let r := _registerActor accepting (mkRegObject None (Some "secret")) w in
  fst r = Throw (Error pubkey_required) /\
  requests (snd r) = [] /\ actors (state (snd r)) = actors (state w).
Proof.
  cbv zeta.
  rewrite (registerActor_requires_pubkey accepting
             (constructor default_settings []) (mkRegObject None (Some "secret"))
             eq_refl).
  repeat split.
Defined.

Lemma register_runs (E : External) (w : World) (u p : string) :
  u <> "" -> p <> "" ->
  let line := mkEmission "log" (PText ("Trying registration: " +:+ u +:+ ":" +:+ p))
                         (state w) (requests w) in
  emitted (snd (register E (Some u) (Some p) w)) = (emitted w ++ [line])%list /\
  requests (snd (register E (Some u) (Some p) w))
    = (requests w ++ [RegisterRequest u p])%list.
Proof.
  intros Hu Hp. unfold register. simpl.
  destruct (String.eqb_spec u "") as [?|_]; [contradiction|].
  destruct (String.eqb_spec p "") as [?|_]; [contradiction|]. simpl.
  unfold try_catch, bind, emit, announce, request, modify, get, ret. simpl.
  destruct (respond E (requests w) (RegisterRequest u p)); simpl; split; reflexivity.
Qed.

(** C10: a call of [register] with both arguments present emits exactly one
    'log' whose text contains the password as given, at a moment when the
    registration request has not yet been made; the request follows. Hence
    two calls that differ in the password alone leave different streams. *)
Theorem register_logs_password (E : External) (w : World) (u p1 p2 : string)
  (Hu : u <> "") (Hp1 : p1 <> "") (Hp2 : p2 <> "") (Hne : p1 <> p2) :
  (exists e text,
     emitted (snd (register E (Some u) (Some p1) w)) = (emitted w ++ [e])%list /\
     name e = "log" /\ payload e = PText text /\ contains text p1 /\
     asked e = requests w /\
     requests (snd (register E (Some u) (Some p1) w))
       = (requests w ++ [RegisterRequest u p1])%list) /\
  emitted (snd (register E (Some u) (Some p1) w))
    <> emitted (snd (register E (Some u) (Some p2) w)).
Proof.
  destruct (register_runs E w u p1 Hu Hp1) as [He1 Hr1].
  destruct (register_runs E w u p2 Hu Hp2) as [He2 _].
  split.
  - do 2 eexists. split; [exact He1|]. split_and!; try reflexivity; [|exact Hr1].
    apply contains_append_r, contains_append_r, contains_suffix.
  - rewrite He1, He2. intros Heq. apply app_inv_head in Heq.
    injection Heq as Heq.
    apply (inj (String.app _)) in Heq.
    apply (inj (String.app _)) in Heq.
    apply (inj (String.app _)) in Heq.
    contradiction.
Qed.

Lemma register_logs_password_witness :
  emitted (snd (register accepting (Some "alice") (Some "hunter2")
                  (constructor default_settings [])))
  <> emitted (snd (register accepting (Some "alice") (Some "hunter3")
                     (constructor default_settings []))).
Proof.
  apply (register_logs_password accepting (constructor default_settings [])
           "alice" "hunter2" "hunter3"); discriminate.
Defined.

Example register_log_line :
  map payload (emitted (snd (register accepting (Some "alice") (Some "hunter2")
                               (constructor default_settings []))))
  = [PText "Trying registration: alice:hunter2"].
Proof. reflexivity. Qed.

(** ** Invitations *)

Lemma membership_handler_runs (w : World) (member : Member) :
  membership_handler member w =
    (Return tt,
     if autojoin (settings w)
        && String.eqb (membership member) "invite"
        && String.eqb (userId member) (handle (settings w))
     then add_request (JoinRoom (m_roomId member)) w
     else w).
Proof.
  unfold membership_handler, bind, get. simpl.
  destruct (autojoin (settings w) && String.eqb (membership member) "invite"
            && String.eqb (userId member) (handle (settings w))); reflexivity.
Qed.

(** C9: on an adapter whose membership handler [start()] bound once, an
    'invite' membership event for the adapter's own handle makes exactly one
    request, a join of the member's room, when [autojoin] is set, and none
    when it is not; an invite for any other user id makes none. *)
Theorem membership_invite_autojoin (w : World) (member : Member)
  (Hbound : on_membership (listeners w) = 1)
  (Hinvite : membership member = "invite") :
  exists w',
    deliver_membership member w = (Return tt, w') /\
    (userId member = handle (settings w) ->
     requests w' =
       if autojoin (settings w)
       then (requests w ++ [JoinRoom (m_roomId member)])%list
       else requests w) /\
    (userId member <> handle (settings w) -> requests w' = requests w).
Proof.
  unfold deliver_membership, bind, get. simpl. rewrite Hbound. simpl.
  unfold bind. rewrite membership_handler_runs, Hinvite. simpl.
  eexists. split; [reflexivity|]. split.
  - intros ->. rewrite String.eqb_refl, andb_true_r.
    destruct (autojoin (settings w)); reflexivity.
  - intros Hother. apply String.eqb_neq in Hother. rewrite Hother.
    rewrite andb_false_r. reflexivity.
Qed.

Lemma membership_invite_autojoin_witness :
  let w := snd (start accepting (constructor default_settings [])) in
  let w' := snd (deliver_membership (mkMember "invite" "@fabric:fabric.pub" "!new:fabric.pub") w) in
  on_membership (listeners w) = 1 /\
  requests w' = (requests w ++ [JoinRoom "!new:fabric.pub"])%list.
Proof.
  cbv zeta. split; [reflexivity|].
  destruct (membership_invite_autojoin
              (snd (start accepting (constructor default_settings [])))
              (mkMember "invite" "@fabric:fabric.pub" "!new:fabric.pub")
              eq_refl eq_refl) as (w' & Hrun & Hself & _).
  rewrite Hrun. simpl. apply Hself. reflexivity.
Defined.

Example invite_without_autojoin :
  let s := mkSettings false "@fabric:fabric.pub" "!c:fabric.pub" 10000 false in
  let w := snd (start accepting (constructor s [])) in
  requests (snd (deliver_membership
                   (mkMember "invite" "@fabric:fabric.pub" "!new:fabric.pub") w))
  = [].
Proof. reflexivity. Qed.

Example invite_for_someone_else :
  let w := snd (start accepting (constructor offline_settings [])) in
  requests (snd (deliver_membership
                   (mkMember "invite" "@alice:fabric.pub" "!new:fabric.pub") w))
  = [].
Proof. reflexivity. Qed.

(** ** A history with an activity in it *)

Example history_with_activity :
  let event := mkEvent "$e1" "m.room.message" "U1" "!R" (Some "hello") in
  let w := run accepting
             [CallStart; ClientSync "PREPARED"; ClientTimeline event (mkRoom "!R" [event])]
             (constructor offline_settings []) in
  map name (emitted w) = ["log"; "log"; "message"; "prepared"; "ready"; "activity"] /\
  status (state w) = "READY".
Proof. split; reflexivity. Qed.

(** * Further properties of the adapter *)

(** ** Collecting reactions *)

Section Reactions.

Variable eventID : string.

Lemma collect_timeline_take (tl : list RelatedEvent) (j : nat)
  (reactions : list ReactionEntry) :
  collect_timeline eventID tl j reactions =
    (reactions ++ map reaction_of (List.filter (reacts_to eventID) (rev (take j tl))))%list.
Proof.
  revert reactions. induction j as [|j IH]; intros reactions; cbn [collect_timeline].
  - rewrite take_0. simpl. rewrite app_nil_r. reflexivity.
  - destruct (tl !! j) as [event|] eqn:Hl.
    + rewrite (take_S_r _ _ _ Hl), rev_unit. simpl.
      destruct (reacts_to eventID event); rewrite IH; [|reflexivity].
      simpl. rewrite <- app_assoc. reflexivity.
    + apply lookup_ge_None_1 in Hl.
      rewrite IH, !take_ge by lia. reflexivity.
Qed.

Lemma collect_rooms_take (timelines : list (list RelatedEvent)) (i : nat)
  (reactions : list ReactionEntry) :
  collect_rooms eventID timelines i reactions =
    (reactions ++
     map reaction_of (List.filter (reacts_to eventID) (rev (concat (take i timelines)))))%list.
Proof.
  revert reactions. induction i as [|i IH]; intros reactions; cbn [collect_rooms].
  - rewrite take_0. simpl. rewrite app_nil_r. reflexivity.
  - destruct (timelines !! i) as [tl|] eqn:Hl.
    + rewrite (take_S_r _ _ _ Hl), concat_app. simpl. rewrite app_nil_r.
      rewrite rev_app_distr, List.filter_app, map_app.
      rewrite IH, collect_timeline_take, take_ge by lia.
      rewrite <- app_assoc. reflexivity.
    + apply lookup_ge_None_1 in Hl.
      rewrite IH, !take_ge by lia. reflexivity.
Qed.

(** X1: [_getReactions] returns one entry (sender and key) for every 'm.reaction'
    event related to the id, over all rooms and with no early exit: later
    rooms first and, within a room, later events first. *)
Theorem getReactions_lists_every_reaction (timelines : list (list RelatedEvent)) :
  _getReactions eventID timelines =
    map reaction_of (List.filter (reacts_to eventID) (rev (concat timelines))).
Proof.
  unfold _getReactions. rewrite collect_rooms_take, take_ge by lia. reflexivity.
Qed.

End Reactions.

Example getReactions_two_rooms :
  let msg := mkEvent "$m" "m.room.message" "@a:x" "!r1" (Some "hi") in
  let up u r := mkRelatedEvent (mkEvent "$r" "m.reaction" u r None)
                  (Some (mkRelation (Some "$m") (Some "+1"))) in
  let other := mkRelatedEvent (mkEvent "$o" "m.reaction" "@c:x" "!r2" None)
                  (Some (mkRelation (Some "$z") (Some "-1"))) in
  _getReactions "$m"
    [[mkRelatedEvent msg None; up "@a:x" "!r1"; up "@b:x" "!r1"]; [other; up "@c:x" "!r2"]]
  = [mkReactionEntry "@c:x" (Some "+1"); mkReactionEntry "@b:x" (Some "+1");
     mkReactionEntry "@a:x" (Some "+1")].
Proof. reflexivity. Qed.

(** ** Sending *)

(** X2: [_send] with a null message throws a TypeError before any request. With
    a message it makes exactly one 'm.room.message' request, to the given
    channel or else to the coordinator, whose body is the content of the
    message's object (undefined when the object is missing); it returns the
    client's answer, and a rejection is thrown on to the caller. *)
Theorem send_posts_once_or_fails_on_null (E : External) (w : World)
  (msg : option OutMessage) (channel : option string) :
  match msg with
  | None => _send E None channel w = (Throw (TypeError "object"), w)
  | Some m =>
      let r := SendEvent (default (coordinator (settings w)) channel)
                 "m.room.message"
                 (Text (match object m with Some o => content o | None => None end)) in
      _send E (Some m) channel w =
        (match respond E (requests w) r with
         | Resolved v => Return v
         | Rejected e => Throw (ClientError e)
         end,
         add_request r w)
  end.
Proof.
  destruct msg as [m|]; [|reflexivity].
  unfold _send, bind, get, request. simpl.
  destruct (object m) as [o|]; simpl;
    match goal with |- context [respond E ?h ?r] => destruct (respond E h r) end;
    reflexivity.
Qed.

(** X3: [alert] never takes the null path of [_send]: it makes exactly one
    'm.room.message' request to the coordinator with the text as body, and
    throws when the client rejects it. *)
Theorem alert_posts_to_coordinator (E : External) (w : World) (text : option string) :
  let r := SendEvent (coordinator (settings w)) "m.room.message" (Text text) in
  alert E text w =
    (match respond E (requests w) r with
     | Resolved _ => Return tt
     | Rejected e => Throw (ClientError e)
     end,
     add_request r w).
Proof.
  unfold alert, _send, bind, get, request, ret. simpl.
  destruct (respond E (requests w)
              (SendEvent (coordinator (settings w)) "m.room.message" (Text text)));
    reflexivity.
Qed.

(** ** Availability and registration *)

(** X4: [_checkUsernameAvailable] never throws. It makes one request and answers
    [true] exactly when the client resolved it, whatever the resolved value,
    and [false] when the client rejected it; the state is untouched. *)
Theorem checkUsernameAvailable_never_throws (E : External) (w : World) (u : string) :
  exists w',
    _checkUsernameAvailable E u w =
      (Return (match respond E (requests w) (IsUsernameAvailable u) with
               | Resolved _ => true
               | Rejected _ => false
               end), w') /\
    requests w' = (requests w ++ [IsUsernameAvailable u])%list /\
    emitted w' = (emitted w ++
      [mkEmission "log" (PText ("Checking username: " +:+ u)) (state w) (requests w)])%list /\
    state w' = state w.
Proof.
  unfold _checkUsernameAvailable, try_catch, bind, emit, announce, request,
    modify, get, ret. simpl.
  destruct (respond E (requests w) (IsUsernameAvailable u));
    eexists; repeat split.
Qed.

(** X5: With a username and a password, [register] never throws: it returns the
    client's answer when the request resolves, writing nothing to the
    console, and null when it is rejected. *)
Theorem register_returns_answer_or_null (E : External) (w : World) (u p : string)
  (Hu : u <> "") (Hp : p <> "") :
  exists w',
    register E (Some u) (Some p) w =
      (Return (match respond E (requests w) (RegisterRequest u p) with
               | Resolved v => Some v
               | Rejected _ => None
               end), w') /\
    (forall v, respond E (requests w) (RegisterRequest u p) = Resolved v ->
               console w' = console w) /\
    state w' = state w.
Proof.
  unfold register. simpl.
  destruct (String.eqb_spec u "") as [?|_]; [contradiction|].
  destruct (String.eqb_spec p "") as [?|_]; [contradiction|]. simpl.
  unfold try_catch, bind, emit, announce, request, modify, get, ret. simpl.
  destruct (respond E (requests w) (RegisterRequest u p)); simpl;
    eexists; repeat split; intros; simpl; congruence.
Qed.

Lemma register_returns_answer_or_null_witness :
  fst (register accepting (Some "alice") (Some "secret")
         (constructor default_settings [])) = Return (Some "$event").
Proof.
  destruct (register_returns_answer_or_null accepting
              (constructor default_settings []) "alice" "secret")
    as (w' & H & _); [discriminate|discriminate|].
  rewrite H. reflexivity.
Defined.

(** ** Reacting and redacting when the event is known *)

(** X6: When [_getEvent] finds the event, [_react] makes exactly one request, an
    annotation sent to the room named by the found event; it returns the
    client's answer, and a rejection is thrown on to the caller. *)
Theorem react_annotates_found_event (E : External) (w : World)
  (eventID emoji : string) (e : MatrixEvent)
  (Hfound : fst (_getEvent eventID w) = Return (Some e)) :
  let r := SendEvent (room_id e) "m.reaction" (Reaction eventID emoji) in
  _react E eventID emoji w =
    (match respond E (requests w) r with
     | Resolved v => Return v
     | Rejected x => Throw (ClientError x)
     end,
     add_request r w).
Proof.
  unfold _getEvent, bind, get, ret in Hfound. simpl in Hfound.
  injection Hfound as Hs.
  unfold _react, _getEvent, bind, get, ret, request. simpl. rewrite Hs. simpl.
  destruct (respond E (requests w)
              (SendEvent (room_id e) "m.reaction" (Reaction eventID emoji)));
    reflexivity.
Qed.

Lemma react_annotates_found_event_witness :
  let e := mkEvent "$a" "m.room.message" "U1" "!R1" (Some "hi") in
  let w := constructor default_settings [mkRoom "!R1" [e]] in
  _react rejecting "$a" "+1" w =
    (Throw (ClientError "M_FORBIDDEN"),
     add_request (SendEvent "!R1" "m.reaction" (Reaction "$a" "+1")) w).
Proof.
  cbv zeta.
  apply (react_annotates_found_event rejecting
           (constructor default_settings
              [mkRoom "!R1" [mkEvent "$a" "m.room.message" "U1" "!R1" (Some "hi")]])
           "$a" "+1" (mkEvent "$a" "m.room.message" "U1" "!R1" (Some "hi"))).
  reflexivity.
Defined.

(** X7: When [_getEvent] finds the event, [_redact] makes exactly one redaction
    request for the room named by the found event and returns at once: the
    client's answer is not awaited, so a rejection never reaches the caller. *)
Theorem redact_does_not_await (w : World) (eventID : string) (e : MatrixEvent)
  (Hfound : fst (_getEvent eventID w) = Return (Some e)) :
  _redact eventID w = (Return tt, add_request (RedactEvent (room_id e) eventID) w).
Proof.
  unfold _getEvent, bind, get, ret in Hfound. simpl in Hfound.
  injection Hfound as Hs.
  unfold _redact, _getEvent, bind, get, ret, request_detached, modify. simpl.
  rewrite Hs. reflexivity.
Qed.

Lemma redact_does_not_await_witness :
  let e := mkEvent "$a" "m.room.message" "U1" "!R1" (Some "hi") in
  let w := constructor default_settings [mkRoom "!R1" [e]] in
  _redact "$a" w = (Return tt, add_request (RedactEvent "!R1" "$a") w).
Proof.
  cbv zeta.
  apply (redact_does_not_await
           (constructor default_settings
              [mkRoom "!R1" [mkEvent "$a" "m.room.message" "U1" "!R1" (Some "hi")]])
           "$a" (mkEvent "$a" "m.room.message" "U1" "!R1" (Some "hi"))).
  reflexivity.
Defined.

(** ** Registering an actor *)

(** Unfold the monad and the emitter, and case on each answer of the client. *)
Ltac run_adapter E :=
  repeat first
    [ progress unfold _checkUsernameAvailable, register, login, try_catch,
        emit, announce, request, modify, get, ret, throw, bind
    | progress simpl
    | match goal with
      | H : String.eqb _ _ = _ |- _ => progress rewrite H
      | H : connect _ = _ |- _ => progress rewrite H
      | |- context [respond E ?h ?q] => destruct (respond E h q)
      end ].

(** How [_registerActor] runs on an object that has a pubkey. *)
Lemma registerActor_runs (E : External) (w : World) (object : RegObject) (pk : string) :
  pubkey object = Some pk -> pk <> "" ->
  let pass := if truthy (password object) then default "" (password object)
              else hashpass E in
  let memory := if truthy (password object) then mkRegObject (pubkey object) None
                else object in
  let r := _registerActor E object w in
  fst r = Return (ActorData (OfPubkey pk)) /\
  state (snd r) = store_actor (actor_id E (OfPubkey pk)) (Memory memory) (state w) /\
  requests (snd r) =
    (if connect (settings w)
     then requests w ++ [IsUsernameAvailable pk] ++
          match respond E (requests w) (IsUsernameAvailable pk) with
          | Resolved _ => if String.eqb pass "" then [] else [RegisterRequest pk pass]
          | Rejected _ => []
          end ++
          [Login pk pass; JoinRoom (coordinator (settings w))]
     else requests w)%list /\
  (connect (settings w) = false ->
   emitted (snd r) = (emitted w ++
     [mkEmission "actor" (PText (actor_id E (OfPubkey pk))) (state (snd r)) (requests w)])%list).
Proof.
  intros Hpk Hne. cbv zeta.
  assert (Hpke : String.eqb pk "" = false) by (apply String.eqb_neq; exact Hne).
  unfold _registerActor. rewrite Hpk.
  destruct (connect (settings w)) eqn:Hc.
  - destruct (password object) as [s|];
      [destruct (String.eqb s "") eqn:Hse;
       [destruct (String.eqb (hashpass E) "") eqn:Hh|]
      |destruct (String.eqb (hashpass E) "") eqn:Hh];
      run_adapter E;
      rewrite <- ?app_assoc; repeat split; try reflexivity; intros; discriminate.
  - run_adapter E. repeat split.
Qed.

(** X8: With a pubkey and [connect] set, [_registerActor] returns the actor's data
    whatever the client answers: the availability check comes first, the
    registration request is made only when that check resolved, and the login
    and the join of the coordinator are attempted in every case, in that
    order. *)
Theorem registerActor_is_best_effort (E : External) (w : World)
  (object : RegObject) (pk : string)
  (Hpk : pubkey object = Some pk) (Hne : pk <> "")
  (Hc : connect (settings w) = true) (Hh : hashpass E <> "") :
  let pass := if truthy (password object) then default "" (password object)
              else hashpass E in
  fst (_registerActor E object w) = Return (ActorData (OfPubkey pk)) /\
  requests (snd (_registerActor E object w)) =
    (requests w ++ [IsUsernameAvailable pk] ++
     match respond E (requests w) (IsUsernameAvailable pk) with
     | Resolved _ => [RegisterRequest pk pass]
     | Rejected _ => []
     end ++
     [Login pk pass; JoinRoom (coordinator (settings w))])%list.
Proof.
  destruct (registerActor_runs E w object pk Hpk Hne) as (Hr & _ & Hq & _).
  split; [exact Hr|]. rewrite Hq, Hc.
  assert (Hpass : String.eqb (if truthy (password object)
                              then default "" (password object)
                              else hashpass E) "" = false).
  { destruct (password object) as [s|]; simpl.
    - destruct (String.eqb s "") eqn:Hs; simpl; [|exact Hs].
      apply String.eqb_neq, Hh.
    - apply String.eqb_neq, Hh. }
  rewrite Hpass. reflexivity.
Qed.

Lemma registerActor_is_best_effort_witness :
  let r := _registerActor rejecting (mkRegObject (Some "pk1") (Some "pw"))
             (constructor default_settings []) in
  fst r = Return (ActorData (OfPubkey "pk1")) /\
  requests (snd r) =
    [IsUsernameAvailable "pk1"; Login "pk1" "pw";
     JoinRoom "!pPjIUAOkwmgXeICrzT:fabric.pub"].
Proof.
  cbv zeta.
  apply (registerActor_is_best_effort rejecting (constructor default_settings [])
           (mkRegObject (Some "pk1") (Some "pw")) "pk1");
    first [reflexivity | discriminate].
Defined.

(** X9: [_registerActor] stores the given object under the actor id derived from
    the pubkey, without its password whenever one was given, and touches no
    other part of the state: no user mapping is made for the actor. *)
Theorem registerActor_never_stores_password (E : External) (w : World)
  (object : RegObject) (pk : string)
  (Hpk : pubkey object = Some pk) (Hne : pk <> "") :
  let s' := state (snd (_registerActor E object w)) in
  exists memory,
    actors s' !! actor_id E (OfPubkey pk) = Some (Memory memory) /\
    pubkey memory = Some pk /\
    truthy (password memory) = false /\
    (forall k, k <> actor_id E (OfPubkey pk) -> actors s' !! k = actors (state w) !! k) /\
    users s' = users (state w) /\
    status s' = status (state w).
Proof.
  destruct (registerActor_runs E w object pk Hpk Hne) as (_ & Hs & _).
  cbv zeta. rewrite Hs. simpl. eexists. split; [apply lookup_insert_eq|].
  split_and!; try reflexivity.
  - destruct (truthy (password object)); exact Hpk.
  - destruct (truthy (password object)) eqn:Ht; [reflexivity|exact Ht].
  - intros k Hk. apply lookup_insert_ne. congruence.
Qed.

Lemma registerActor_never_stores_password_witness :
  exists memory,
    actors (state (snd (_registerActor accepting (mkRegObject (Some "pk1") (Some "pw"))
                          (constructor default_settings []))))
      !! "pubkey:pk1" = Some (Memory memory) /\
    truthy (password memory) = false.
Proof.
  destruct (registerActor_never_stores_password accepting
              (constructor default_settings [])
              (mkRegObject (Some "pk1") (Some "pw")) "pk1" eq_refl)
    as (memory & Hl & _ & Hp & _); [discriminate|].
  exists memory. split; [exact Hl|exact Hp].
Defined.

(** X10: With [connect] unset, [_registerActor] is local: it makes no request to
    the client and emits a single event, 'actor', carrying the actor id. *)
Theorem registerActor_offline_is_local (E : External) (w : World)
  (object : RegObject) (pk : string)
  (Hpk : pubkey object = Some pk) (Hne : pk <> "")
  (Hc : connect (settings w) = false) :
  let w' := snd (_registerActor E object w) in
  requests w' = requests w /\
  emitted w' = (emitted w ++
    [mkEmission "actor" (PText (actor_id E (OfPubkey pk))) (state w') (requests w)])%list.
Proof.
  destruct (registerActor_runs E w object pk Hpk Hne) as (_ & _ & Hq & He).
  cbv zeta. rewrite Hq, Hc. split; [reflexivity|]. apply He, Hc.
Qed.

Lemma registerActor_offline_is_local_witness :
  let w' := snd (_registerActor rejecting (mkRegObject (Some "pk1") None)
                   (constructor offline_settings [])) in
  requests w' = [] /\ map name (emitted w') = ["actor"].
Proof.
  cbv zeta.
  destruct (registerActor_offline_is_local rejecting (constructor offline_settings [])
              (mkRegObject (Some "pk1") None) "pk1" eq_refl)
    as [Hq He]; [discriminate|reflexivity|].
  rewrite Hq, He. split; reflexivity.
Defined.
(** ** Starting *)

(** X11: When the client accepts both the start and the join of the coordinator,
    [start] returns having made exactly these two requests in this order and
    having bound one more handler to 'sync', 'activity', 'prepared' and
    'RoomMember.membership'; no timeline handler is bound yet and the state is
    untouched. *)
Theorem start_connects_then_binds (E : External) (w : World) (v1 v2 : string)
  (Hc : connect (settings w) = true)
  (Hs : respond E (requests w) (StartClient (sync_limit (settings w))) = Resolved v1)
  (Hj : respond E (requests w ++ [StartClient (sync_limit (settings w))])
          (JoinRoom (coordinator (settings w))) = Resolved v2) :
  exists w',
    start E w = (Return tt, w') /\
    requests w' = (requests w ++ [StartClient (sync_limit (settings w));
                                  JoinRoom (coordinator (settings w))])%list /\
    listeners w' =
      mkListeners (S (sync_once (listeners w))) (on_timeline (listeners w))
                  (S (on_membership (listeners w))) (S (on_activity (listeners w)))
                  (S (on_prepared (listeners w))) /\
    state w' = state w.
Proof.
  unfold start, set_status, listen, emit, announce, request, modify, get, ret, bind.
  simpl. rewrite Hc. simpl. rewrite Hs. simpl. rewrite Hj. simpl.
  eexists. split; [reflexivity|]. simpl. rewrite <- app_assoc. repeat split.
Qed.

Lemma start_connects_then_binds_witness :
  let w' := snd (start accepting (constructor default_settings [])) in
  requests w' = [StartClient 10000; JoinRoom "!pPjIUAOkwmgXeICrzT:fabric.pub"] /\
  listeners w' = mkListeners 1 0 1 1 1.
Proof.
  cbv zeta.
  destruct (start_connects_then_binds accepting (constructor default_settings [])
              "$event" "$event" eq_refl eq_refl eq_refl) as (w' & Hr & Hq & Hl & _).
  rewrite Hr. simpl. split; [exact Hq|exact Hl].
Defined.

(** X12: When the client rejects the start, or accepts it and rejects the join of
    the coordinator, [start] throws that rejection. The membership handler is
    then not bound (no auto-join) and 'Started!' is not logged, while the
    'sync', 'activity' and 'prepared' handlers bound beforehand stay bound. *)
Theorem start_failure_leaves_handlers_bound (E : External) (w : World) (e : string)
  (Hc : connect (settings w) = true)
  (Hfail :
     respond E (requests w) (StartClient (sync_limit (settings w))) = Rejected e \/
     exists v,
       respond E (requests w) (StartClient (sync_limit (settings w))) = Resolved v /\
       respond E (requests w ++ [StartClient (sync_limit (settings w))])
         (JoinRoom (coordinator (settings w))) = Rejected e) :
  exists w',
    start E w = (Throw (ClientError e), w') /\
    on_membership (listeners w') = on_membership (listeners w) /\
    sync_once (listeners w') = S (sync_once (listeners w)) /\
    on_activity (listeners w') = S (on_activity (listeners w)) /\
    on_prepared (listeners w') = S (on_prepared (listeners w)) /\
    emitted w' = (emitted w ++
      [mkEmission "log" (PText "[SERVICES:MATRIX] Starting...") (state w) (requests w)])%list /\
    state w' = state w.
Proof.
  unfold start, set_status, listen, emit, announce, request, modify, get, ret, bind.
  simpl. rewrite Hc. simpl.
  destruct Hfail as [Hs|(v & Hs & Hj)]; rewrite Hs; simpl.
  - eexists. repeat split.
  - rewrite Hj. simpl. eexists. repeat split.
Qed.

Lemma start_failure_leaves_handlers_bound_witness :
  let r := start join_refused (constructor default_settings []) in
  fst r = Throw (ClientError "M_FORBIDDEN") /\
  on_membership (listeners (snd r)) = 0 /\
  sync_once (listeners (snd r)) = 1.
Proof.
  cbv zeta.
  destruct (start_failure_leaves_handlers_bound join_refused
              (constructor default_settings []) "M_FORBIDDEN" eq_refl)
    as (w' & Hr & Hm & Hs & _).
  - right. exists "$event". split; reflexivity.
  - rewrite Hr. simpl. split; [reflexivity|]. split; [exact Hm|exact Hs].
Defined.

(** ** Counting emissions *)

Lemma count_named_app (n : string) (l1 l2 : list Emission) :
  count_named n (l1 ++ l2) = count_named n l1 + count_named n l2.
Proof. unfold count_named. rewrite filter_app, length_app. reflexivity. Qed.

Lemma count_named_snoc (n : string) (l : list Emission) (e : Emission) :
  count_named n (l ++ [e]) = count_named n l + (if String.eqb (name e) n then 1 else 0).
Proof.
  rewrite count_named_app. f_equal. unfold count_named.
  destruct (String.eqb_spec (name e) n) as [Heq|Hne].
  - rewrite filter_cons_True by exact Heq. reflexivity.
  - rewrite filter_cons_False by exact Hne. reflexivity.
Qed.

(** ** The sync callback, delivered *)

Lemma readied_refl (w : World) : readied 0 w w.
Proof. unfold readied. repeat split; lia. Qed.

Lemma readied_trans (a b : nat) (w1 w2 w3 : World) :
  readied a w1 w2 -> readied b w2 w3 -> readied (a + b) w1 w3.
Proof.
  unfold readied.
  intros (H1 & H2 & H3 & H4 & H5 & H6 & H7 & H8) (G1 & G2 & G3 & G4 & G5 & G6 & G7 & G8).
  split_and!; try congruence; lia.
Qed.

Lemma handlePreparedEvent_readied (p : Payload) (w : World) :
  exists w', _handlePreparedEvent p w = (Return tt, w') /\ readied 1 w w'.
Proof.
  eexists. split; [reflexivity|].
  unfold readied. simpl. rewrite count_named_snoc. simpl.
  split_and!; try reflexivity; lia.
Qed.

Lemma prepared_handlers_readied (p : Payload) (n : nat) (w : World) :
  exists w', repeatM n (_handlePreparedEvent p) w = (Return tt, w') /\ readied n w w'.
Proof.
  revert w. induction n as [|n IH]; intros w.
  - exists w. split; [reflexivity|apply readied_refl].
  - destruct (handlePreparedEvent_readied p w) as (w1 & Hr1 & H1).
    destruct (IH w1) as (w2 & Hr2 & H2).
    exists w2. split.
    + simpl. unfold bind. rewrite Hr1. exact Hr2.
    + apply (readied_trans 1 n w w1 w2); assumption.
Qed.

Lemma handleClientSync_readied (E : External) (st : string) (w : World) :
  String.eqb (trim st) "PREPARED" = true ->
  exists w', _handleClientSync E st w = (Return tt, w') /\
             readied (on_prepared (listeners w)) w w'.
Proof.
  intros Ht. unfold _handleClientSync. rewrite Ht.
  unfold emit, bind, announce, modify, get, ret. simpl.
  match goal with
  | |- context [repeatM ?n (_handlePreparedEvent ?p) ?w0] =>
      destruct (prepared_handlers_readied p n w0) as (w' & Hr & H)
  end.
  exists w'. split.
  - rewrite Hr. reflexivity.
  - unfold readied in *. simpl in H. rewrite !count_named_snoc in H. simpl in H.
    destruct H as (H1 & H2 & H3 & H4 & H5 & H6 & H7 & H8).
    split_and!; try assumption. lia.
Qed.

Lemma sync_handlers_readied (E : External) (st : string) (a : nat) (w : World) :
  String.eqb (trim st) "PREPARED" = true ->
  exists w', repeatM a (_handleClientSync E st) w = (Return tt, w') /\
             readied (a * on_prepared (listeners w)) w w'.
Proof.
  intros Ht. revert w. induction a as [|a IH]; intros w.
  - exists w. split; [reflexivity|apply readied_refl].
  - destruct (handleClientSync_readied E st w Ht) as (w1 & Hr1 & H1).
    destruct (IH w1) as (w2 & Hr2 & H2).
    exists w2. split.
    + simpl. unfold bind. rewrite Hr1. exact Hr2.
    + assert (Hb : on_prepared (listeners w1) = on_prepared (listeners w))
        by apply H1.
      rewrite Hb in H2. simpl.
      apply (readied_trans _ _ w w1 w2); assumption.
Qed.

(** X14: Every 'sync' handler runs every 'prepared' handler: delivering 'PREPARED'
    to an adapter with [a] sync handlers and [b] prepared handlers bound (as
    after [start] was called several times) emits 'ready' [a * b] times and
    binds [a * b] more timeline handlers; it makes no request and leaves the
    state as it was. *)
Theorem sync_prepared_multiplies_handlers (E : External) (w : World) (st : string)
  (Ht : String.eqb (trim st) "PREPARED" = true) :
  exists w',
    deliver_sync E st w = (Return tt, w') /\
    readied (sync_once (listeners w) * on_prepared (listeners w)) w w' /\
    sync_once (listeners w') = 0.
Proof.
  unfold deliver_sync, bind, get, modify. simpl.
  match goal with
  | |- context [repeatM ?n (_handleClientSync E st) ?w0] =>
      destruct (sync_handlers_readied E st n w0 Ht) as (w' & Hr & H);
      assert (Hz : keeps (fun x => sync_once (listeners x) = 0)
                     (repeatM n (_handleClientSync E st)))
  end.
  { apply keeps_repeatM. unfold _handleClientSync. rewrite Ht.
    unfold emit. repeat (apply keeps_bind; [|intros ?]);
      try (intros x Hx; exact Hx).
    simpl. apply keeps_repeatM. intros x Hx. exact Hx. }
  exists w'. split; [rewrite Hr; reflexivity|]. split.
  - exact H.
  - match type of Hz with keeps _ ?c =>
      match type of Hr with _ ?w0 = _ => specialize (Hz w0 eq_refl) end end.
    rewrite Hr in Hz. exact Hz.
Qed.

Lemma sync_prepared_multiplies_handlers_witness :
  let w := run accepting [CallStart; CallStart] (constructor offline_settings []) in
  let w' := snd (deliver_sync accepting "PREPARED" w) in
  count_named "ready" (emitted w') = 4 /\ on_timeline (listeners w') = 4.
Proof.
  cbv zeta.
  destruct (sync_prepared_multiplies_handlers accepting
              (run accepting [CallStart; CallStart] (constructor offline_settings []))
              "PREPARED" eq_refl) as (w' & Hr & (Hc & Hl & _) & _).
  rewrite Hr. simpl. split; [exact Hc|exact Hl].
Defined.

Lemma deliver_sync_unbinds (E : External) (st : string) (w : World) :
  sync_once (listeners (snd (deliver_sync E st w))) = 0.
Proof.
  unfold deliver_sync, bind, get, modify. simpl.
  match goal with
  | |- context [repeatM ?n (_handleClientSync E st) ?w0] =>
      assert (Hz : keeps (fun x => sync_once (listeners x) = 0)
                     (repeatM n (_handleClientSync E st)));
      [|specialize (Hz w0 eq_refl);
        destruct (repeatM n (_handleClientSync E st) w0) as [[[]|e|] w'];
        exact Hz]
  end.
  apply keeps_repeatM. unfold _handleClientSync, emit.
  destruct (String.eqb (trim st) "PREPARED").
  - repeat (apply keeps_bind; [|intros ?]); try (intros x Hx; exact Hx).
    simpl. apply keeps_repeatM. intros x Hx. exact Hx.
  - repeat (apply keeps_bind; [|intros ?]); try (intros x Hx; exact Hx).
Qed.

(** X15: The sync handler is bound with [once]: after one delivery of a sync
    status, a further delivery of any status, expected or not, runs nothing:
    no emission, no exit, the adapter is as it was. *)
Theorem sync_handler_runs_once (E : External) (w : World) (st1 st2 : string) :
  let w1 := snd (deliver_sync E st1 w) in
  deliver_sync E st2 w1 = (Return tt, w1).
Proof.
  cbv zeta. pose proof (deliver_sync_unbinds E st1 w) as Hz.
  destruct (snd (deliver_sync E st1 w)) as [s0 s1 [a b c d e] r em rq co].
  simpl in Hz. subst a. reflexivity.
Qed.

(** X16: An unexpected sync status is fatal at the first handler: with at least
    one sync handler bound, exactly one 'error' is emitted and the process
    exits; the history ends there, whatever was to follow. *)
Theorem sync_unexpected_exits_at_first_handler (E : External) (w : World)
  (st : string) (n : nat) (ops : list Op)
  (Hn : sync_once (listeners w) = S n)
  (Ht : String.eqb (trim st) "PREPARED" = false) :
  exists w',
    deliver_sync E st w = (Exit, w') /\
    emitted w' = (emitted w ++
      [mkEmission "error" (PGenericError ("Unhandled sync event state: " +:+ st))
                  (state w) (requests w)])%list /\
    requests w' = requests w /\
    run E (ClientSync st :: ops) w = w'.
Proof.
  unfold run, step, deliver_sync, bind, get, modify. simpl. rewrite Hn. simpl.
  unfold bind, _handleClientSync. rewrite Ht.
  unfold emit, bind, announce, modify, get, ret, exit. simpl.
  eexists. repeat split.
Qed.

Lemma sync_unexpected_exits_at_first_handler_witness :
  let w := snd (start accepting (constructor default_settings [])) in
  fst (deliver_sync accepting "ERROR" w) = Exit /\
  run accepting [ClientSync "ERROR"; CallStart] w = snd (deliver_sync accepting "ERROR" w).
Proof.
  cbv zeta.
  destruct (sync_unexpected_exits_at_first_handler accepting
              (snd (start accepting (constructor default_settings [])))
              "ERROR" 0 [CallStart] eq_refl eq_refl) as (w' & Hr & _ & _ & Hrun).
  rewrite Hr, Hrun. split; reflexivity.
Defined.

(** ** Timeline events, delivered *)

Lemma timeline_handlers_run (E : External) (event : MatrixEvent) (room : Room)
  (n : nat) (w : World) :
  let kind := if String.eqb (etype event) "m.room.message" then "activity"
              else "warning" in
  exists w',
    repeatM n (_handleRoomTimeline E event room) w = (Return tt, w') /\
    count_named kind (emitted w') = count_named kind (emitted w) + n /\
    length (emitted w') = length (emitted w) + n /\
    requests w' = requests w /\
    listeners w' = listeners w.
Proof.
  cbv zeta. revert w. induction n as [|n IH]; intros w.
  - exists w. split; [reflexivity|]. split_and!; try reflexivity; lia.
  - destruct (IH (snd (_handleRoomTimeline E event room w)))
      as (w2 & Hr & Hc & Hl & Hq & Hli).
    rewrite handleRoomTimeline_runs in Hr, Hc, Hl, Hq, Hli.
    exists w2. split.
    + simpl. unfold bind. rewrite handleRoomTimeline_runs. exact Hr.
    + rewrite Hc, Hl, Hq, Hli.
      destruct (String.eqb (etype event) "m.room.message"); simpl;
        rewrite count_named_snoc, length_app; simpl;
        split_and!; try reflexivity; lia.
Qed.

(** X17: A timeline event is relayed once per bound timeline handler: with [n]
    handlers bound, a message yields [n] 'activity' emissions and any other
    type [n] 'warning' emissions, and nothing else. Before the prepared handler
    has run ([n = 0]) the event is dropped and the adapter is as it was. *)
Theorem timeline_relayed_once_per_handler (E : External) (w : World)
  (event : MatrixEvent) (room : Room) :
  let kind := if String.eqb (etype event) "m.room.message" then "activity"
              else "warning" in
  let n := on_timeline (listeners w) in
  exists w',
    deliver_timeline E event room w = (Return tt, w') /\
    count_named kind (emitted w') = count_named kind (emitted w) + n /\
    length (emitted w') = length (emitted w) + n /\
    requests w' = requests w /\
    (n = 0 -> w' = w).
Proof.
  cbv zeta. unfold deliver_timeline, bind, get. simpl.
  destruct (timeline_handlers_run E event room (on_timeline (listeners w)) w)
    as (w' & Hr & Hc & Hl & Hq & _).
  exists w'. split_and!; try assumption.
  intros Hz. rewrite Hz in Hr. simpl in Hr. unfold ret in Hr. congruence.
Qed.

Example timeline_before_prepared_is_dropped :
  let event := mkEvent "$e1" "m.room.message" "U1" "!R" (Some "hello") in
  let w := snd (start accepting (constructor default_settings [])) in
  deliver_timeline accepting event (mkRoom "!R" [event]) w = (Return tt, w).
Proof. vm_compute. reflexivity. Qed.

(** ** Stopping *)

(** X18: [stop] changes nothing: it makes no request to the client and unbinds no
    handler, so any history runs the same with a call of [stop] in it as
    without. *)
Theorem stop_changes_nothing (E : External) (before later : list Op) (w : World) :
  stop w = (Return tt, w) /\
  run E (before ++ CallStop :: later) w = run E (before ++ later) w.
Proof.
  split; [reflexivity|].
  revert w. induction before as [|op before IH]; intros w.
  - reflexivity.
  - simpl. destruct (step E op w) as [[[]|e|] w']; auto.
Qed.

(** ** The registry *)

(** X19: For a user id other than '__proto__', whose actor id is not
    '__proto__' either, [_ensureUser] is idempotent on the adapter and touches
    only its own two entries: a second call with the same user id changes
    nothing more, every other user mapping and every actor stored under
    another id is as before, and so are the status, the stream and the
    requests. *)
Theorem ensureUser_idempotent_and_local (E : External) (id : string) (w : World)
  (Hid : id <> "__proto__") (Hkey : actor_id E (OfId id) <> "__proto__") :
  let w1 := snd (_ensureUser E id w) in
  snd (_ensureUser E id w1) = w1 /\
  (forall id', id' <> id -> users (state w1) !! id' = users (state w) !! id') /\
  (forall k, k <> actor_id E (OfId id) ->
             actors (state w1) !! k = actors (state w) !! k) /\
  status (state w1) = status (state w) /\
  emitted w1 = emitted w /\ requests w1 = requests w /\ listeners w1 = listeners w.
Proof.
  cbv zeta. rewrite !ensureUser_runs. simpl. split_and!; try reflexivity.
  - unfold with_state, store_user, store_actor. simpl.
    rewrite !insert_insert_eq. reflexivity.
  - intros id' Hne. apply lookup_insert_ne. congruence.
  - intros k Hne. apply lookup_insert_ne. congruence.
Qed.

Lemma ensureUser_idempotent_and_local_witness :
  let w := constructor default_settings [] in
  let w1 := snd (_ensureUser accepting "@alice:fabric.pub" w) in
  snd (_ensureUser accepting "@alice:fabric.pub" w1) = w1 /\
  users (state w1) !! "@bob:fabric.pub" = users (state w) !! "@bob:fabric.pub".
Proof.
  cbv zeta.
  destruct (ensureUser_idempotent_and_local accepting "@alice:fabric.pub"
              (constructor default_settings []))
    as (Hidem & Husers & _); [discriminate|simpl; discriminate|].
  split; [exact Hidem|]. apply Husers. discriminate.
Defined.

Lemma handleMatrixMessage_runs (E : External) (w : World) (msg : MatrixEvent) :
  _handleMatrixMessage E msg w =
    (Return tt,
     snd ((if String.eqb (etype msg) "m.room.message"
           then announce "activity"
                  (PActivity (actor_id E (OfId (sender msg))) None (body msg)
                     ("/rooms/" +:+ room_id msg))
           else announce "warning"
                  (PText ("Unhandled Matrix message type: " +:+ etype msg)))
            (snd (_ensureUser E (sender msg) w)))).
Proof.
  unfold _handleMatrixMessage.
  destruct (String.eqb (etype msg) "m.room.message").
  - apply (ensure_then_activity E (sender msg)).
  - reflexivity.
Qed.

(** X20: [_handleMatrixMessage] always returns and adds exactly one emission, made
    once the sender is ensured: for an 'm.room.message' an 'activity' that
    carries no object id, whose content is the body and whose target is built
    from the room id of the event itself; for any other type a 'warning' whose
    text contains the type. It makes no request. *)
Theorem handleMatrixMessage_emits_one (E : External) (w : World) (msg : MatrixEvent) :
  exists w' e,
    _handleMatrixMessage E msg w = (Return tt, w') /\
    emitted w' = (emitted w ++ [e])%list /\
    seen e = state (snd (_ensureUser E (sender msg) w)) /\
    state w' = seen e /\
    requests w' = requests w /\
    if String.eqb (etype msg) "m.room.message"
    then name e = "activity" /\
         payload e = PActivity (actor_id E (OfId (sender msg))) None (body msg)
                               ("/rooms/" +:+ room_id msg)
    else name e = "warning" /\
         exists text, payload e = PText text /\ contains text (etype msg).
Proof.
  rewrite handleMatrixMessage_runs.
  destruct (String.eqb (etype msg) "m.room.message").
  - do 2 eexists. repeat split.
  - do 2 eexists. repeat split.
    eexists. split; [reflexivity|]. apply contains_suffix.
Qed.

(** X21: Along every history of an adapter in which no user id and no actor
    id is '__proto__', the registry is consistent: each user id under [users]
    is mapped to the actor id derived from it, and that actor is stored under
    [actors]. *)
Theorem registry_stays_consistent (E : External) (s : Settings)
  (known : list Room) (ops : list Op) (Hplain : plain_keys E s ops) :
  registry_consistent E (state (run E ops (constructor s known))).
Proof.
  apply (keeps_run E (fun w => registry_consistent E (state w)));
    try (intros; simpl; assumption).
  - intros pk o w H id x Hx. simpl in *. destruct (H id x Hx) as [H1 H2].
    split; [exact H1|]. apply lookup_insert_is_Some'. auto.
  - intros id0 w H id x Hx. simpl in *.
    destruct (decide (id0 = id)) as [->|Hne].
    + rewrite lookup_insert_eq in Hx. injection Hx as <-.
      split; [reflexivity|]. rewrite lookup_insert_eq. eauto.
    + rewrite lookup_insert_ne in Hx by exact Hne.
      destruct (H id x Hx) as [H1 H2].
      split; [exact H1|]. apply lookup_insert_is_Some'. auto.
  - intros id0 oid c t w H id x Hx. simpl in *.
    destruct (decide (id0 = id)) as [->|Hne].
    + rewrite lookup_insert_eq in Hx. injection Hx as <-.
      split; [reflexivity|]. rewrite lookup_insert_eq. eauto.
    + rewrite lookup_insert_ne in Hx by exact Hne.
      destruct (H id x Hx) as [H1 H2].
      split; [exact H1|]. apply lookup_insert_is_Some'. auto.
  - intros id x Hx. simpl in Hx. rewrite lookup_empty in Hx. discriminate.
Qed.

Lemma sample_ids_are_plain (a : ActorInput) : actor_id accepting a <> "__proto__".
Proof. destruct a; simpl; discriminate. Qed.

Lemma registry_stays_consistent_witness :
  let event := mkEvent "$e1" "m.room.message" "@alice:fabric.pub" "!R" (Some "hello") in
  registry_consistent accepting
    (state (run accepting
              [CallStart; ClientSync "PREPARED"; ClientTimeline event (mkRoom "!R" [event]);
               CallGetId]
              (constructor offline_settings []))).
Proof.
  cbv zeta. apply registry_stays_consistent.
  split; [apply sample_ids_are_plain|].
  intros op id Hop Hid. simpl in Hop.
  destruct Hop as [<-|[<-|[<-|[<-|[]]]]]; simpl in Hid;
    try contradiction; destruct Hid as [<-|[]]; discriminate.
Defined.

(** X22: The registry only grows: no method removes an actor or a user mapping, so
    every key present at some point is present after any further history. *)
Theorem registry_only_grows (E : External) (ops : list Op) (w : World) :
  dom (actors (state w)) ⊆ dom (actors (state (run E ops w))) /\
  dom (users (state w)) ⊆ dom (users (state (run E ops w))).
Proof.
  split; intros k Hk; apply elem_of_dom; apply elem_of_dom in Hk.
  - apply (keeps_run E (fun w' => is_Some (actors (state w') !! k)));
      try (intros; simpl; assumption);
      intros; simpl; apply lookup_insert_is_Some'; auto.
  - apply (keeps_run E (fun w' => is_Some (users (state w') !! k)));
      try (intros; simpl; assumption);
      intros; simpl; apply lookup_insert_is_Some'; auto.
Qed.

(** ** Invitations, delivered *)

Lemma membership_handlers_run (member : Member) (n : nat) (w : World) :
  let joins := autojoin (settings w)
               && String.eqb (membership member) "invite"
               && String.eqb (userId member) (handle (settings w)) in
  exists w',
    repeatM n (membership_handler member) w = (Return tt, w') /\
    requests w' = (requests w ++
      replicate (if joins then n else 0) (JoinRoom (m_roomId member)))%list /\
    settings w' = settings w /\ state w' = state w /\ emitted w' = emitted w.
Proof.
  cbv zeta. revert w. induction n as [|n IH]; intros w.
  - exists w. split; [reflexivity|].
    destruct (_ && _ && _); simpl; rewrite app_nil_r; repeat split.
  - simpl. unfold bind. rewrite membership_handler_runs.
    destruct (autojoin (settings w) && String.eqb (membership member) "invite"
              && String.eqb (userId member) (handle (settings w))) eqn:Hj.
    + destruct (IH (add_request (JoinRoom (m_roomId member)) w))
        as (w' & Hr & Hq & Hs & Hst & He).
      simpl in Hq, Hs, Hst, He. rewrite Hj in Hq.
      exists w'. split; [exact Hr|]. rewrite Hq, <- app_assoc. repeat split; assumption.
    + destruct (IH w) as (w' & Hr & Hq & Hs & Hst & He). rewrite Hj in Hq.
      exists w'. split; [exact Hr|]. repeat split; assumption.
Qed.

(** X23: A membership event makes join requests only when [autojoin] is set, the
    membership is 'invite' and the member is the adapter's own handle; it then
    makes one request per bound membership handler, each for the member's
    room. In every other case (another membership such as 'join' or 'leave',
    another user, [autojoin] off, or no handler bound) it makes none. *)
Theorem membership_joins_once_per_handler (w : World) (member : Member) :
  let joins := autojoin (settings w)
               && String.eqb (membership member) "invite"
               && String.eqb (userId member) (handle (settings w)) in
  exists w',
    deliver_membership member w = (Return tt, w') /\
    requests w' = (requests w ++
      replicate (if joins then on_membership (listeners w) else 0)
                (JoinRoom (m_roomId member)))%list /\
    state w' = state w /\ emitted w' = emitted w.
Proof.
  cbv zeta. unfold deliver_membership, bind, get. simpl.
  destruct (membership_handlers_run member (on_membership (listeners w)) w)
    as (w' & Hr & Hq & _ & Hst & He).
  exists w'. repeat split; assumption.
Qed.

Example membership_join_is_ignored :
  let w := snd (start accepting (constructor offline_settings [])) in
  requests (snd (deliver_membership
                   (mkMember "join" "@fabric:fabric.pub" "!new:fabric.pub") w))
  = [].
Proof. vm_compute. reflexivity. Qed.

(** X13: With [connect] unset, [start] always returns, makes no request to the
    client and still binds the four handlers. *)
Theorem start_offline_makes_no_request (E : External) (w : World)
  (Hc : connect (settings w) = false) :
  exists w',
    start E w = (Return tt, w') /\
    requests w' = requests w /\
    listeners w' =
      mkListeners (S (sync_once (listeners w))) (on_timeline (listeners w))
                  (S (on_membership (listeners w))) (S (on_activity (listeners w)))
                  (S (on_prepared (listeners w))) /\
    state w' = state w.
Proof.
  unfold start, set_status, listen, emit, announce, request, modify, get, ret, bind.
  simpl. rewrite Hc. simpl. eexists. repeat split.
Qed.

Lemma start_offline_makes_no_request_witness :
  let r := start rejecting (constructor offline_settings []) in
  fst r = Return tt /\ requests (snd r) = [].
Proof.
  cbv zeta.
  destruct (start_offline_makes_no_request rejecting
              (constructor offline_settings []) eq_refl) as (w' & Hr & Hq & _).
  rewrite Hr. simpl. split; [reflexivity|exact Hq].
Defined.
